(** * store-backend: the purchase transaction engine of [src/index.js]

    A shallow embedding of the Express/SQLite backend: the request bodies
    that [express.json()] hands to the route handlers, the three SQLite
    tables behind the single shared connection [db], the statements the
    handlers issue, and the order in which the node-sqlite3 driver runs the
    statements and their callbacks.

    The handlers are embedded from the JavaScript text.  What they run on
    is embedded from its documented behaviour: the SQL statements from
    their text and SQLite's rules for transactions, [AUTOINCREMENT] and
    foreign keys, the driver from node-sqlite3's contract for [run],
    [prepare], [serialize] and callbacks.

    Modelling decisions:
    - a request body is a JSON value; JavaScript numbers are modelled by
      the rationals plus the two infinities ([JSON.parse] never yields NaN),
      which covers every double the checks [Number.isInteger], [< 0] and
      [<= 0] can be asked about;
    - the driver is asynchronous: [db.run] and [Statement#run] only enqueue
      a statement, and a callback runs after the statement has executed,
      hence never before the JavaScript code that issued it has returned.
      What a handler issues inside [db.serialize] is executed in the order
      issued; what a callback issues afterwards waits on its [Statement]
      object, and nothing orders the runs of two objects.  [Parallel] has
      every such schedule.  [App.serve] is the one of them that executes
      the statements in the order in which they were issued; it is used
      where the outcome does not depend on the order;
    - a statement that fails and was run without a callback makes the
      driver emit an ['error'] event nobody listens to: the process ends,
      and what it has not answered stays unanswered;
    - a stock is an integer; the store holds it as a 64-bit integer when it
      fits and as a double when it does not, and [stock - ?] is computed
      accordingly, with the rounding of doubles;
    - the [date] column of [purchases] (filled by [CURRENT_TIMESTAMP]) is
      left out: no handler reads it back on the write path;
    - the routes with a single statement ([GET /items],
      [DELETE /items/:id], [GET /purchases]) are embedded in [Routes], as
      the statement followed by its callback; [GET /], which sends a fixed
      text, and the [CREATE TABLE IF NOT EXISTS] statements are not.

    The second source file of the repository is an earlier state of the
    same server, without the checks on items and lines; the properties
    below are about [src/index.js]. *)

From Stdlib Require Import ZArith QArith Lia.
From stdpp Require Import gmap strings list.

Set Warnings "-register-all".

Local Open Scope string_scope.
Local Open Scope list_scope.
Local Open Scope Z_scope.

(** ** JavaScript values of a parsed JSON body *)

Module JS.

Inductive number :=
| Finite (q : Q)
| Infinite (negative : bool).

Inductive value :=
| undefined
| null
| VBool (b : bool)
| VNum (n : number)
| VStr (s : string)
| VArr (elements : list value)
| VObj (fields : list (string * value)).

(** [typeof v] *)
Definition typeof (v : value) : string :=
  match v with
  | undefined => "undefined"
  | null => "object"
  | VBool _ => "boolean"
  | VNum _ => "number"
  | VStr _ => "string"
  | VArr _ => "object"
  | VObj _ => "object"
  end.

(** ToBoolean: the falsy values are [undefined], [null], [false], zero and
    the empty string. *)
Definition truthy (v : value) : bool :=
  match v with
  | undefined => false
  | null => false
  | VBool b => b
  | VNum (Finite q) => negb (Z.eqb (Qnum q) 0)
  | VNum (Infinite _) => true
  | VStr s => negb (String.eqb s "")
  | VArr _ => true
  | VObj _ => true
  end.

(** [Number.isInteger(v)]: [v] is a number and has an integral value. *)
Definition Number_isInteger (v : value) : bool :=
  match v with
  | VNum (Finite q) => Pos.eqb (Qden (Qred q)) 1
  | _ => false
  end.

(** [Array.isArray(v)] *)
Definition Array_isArray (v : value) : bool :=
  match v with
  | VArr _ => true
  | _ => false
  end.

(** [v < 0] and [v <= 0].  The source evaluates them only behind a
    [Number.isInteger] or [typeof v !== "number"] guard of a short-circuit
    [||], so only numbers reach them. *)
Definition lt_zero (v : value) : bool :=
  match v with
  | VNum (Finite q) => Z.ltb (Qnum q) 0
  | VNum (Infinite negative) => negative
  | _ => false
  end.

Definition le_zero (v : value) : bool :=
  match v with
  | VNum (Finite q) => Z.leb (Qnum q) 0
  | VNum (Infinite negative) => negative
  | _ => false
  end.

(** Reading a property throws a TypeError on [undefined] and [null]. *)
Definition nullish (v : value) : bool :=
  match v with
  | undefined => true
  | null => true
  | _ => false
  end.

(** The fields of a parsed object hold each key once ([JSON.parse] keeps
    one value per key); a key that is absent reads as [undefined]. *)
Fixpoint field (k : string) (fields : list (string * value)) : value :=
  match fields with
  | [] => undefined
  | (k', v) :: rest => if String.eqb k k' then v else field k rest
  end.

(** [v.k] for a [v] that is not nullish and a key [k] among the ones the
    handlers read ([name], [stock], [price], [customer_name],
    [shipping_address], [items], [item_id], [quantity]): primitives and
    arrays have no such property. *)
Definition prop (v : value) (k : string) : value :=
  match v with
  | VObj fields => field k fields
  | _ => undefined
  end.

(** The elements a [for ... of] loop visits, and [items.length]. *)
Definition elements (v : value) : list value :=
  match v with
  | VArr l => l
  | _ => []
  end.

(** What the driver binds to a [?] placeholder: the text of a string, the
    integer of an integral number, the number itself. *)
Definition text_of (v : value) : string :=
  match v with
  | VStr s => s
  | _ => ""
  end.

Definition int_of (v : value) : Z :=
  match v with
  | VNum (Finite q) => Qnum (Qred q)
  | _ => 0
  end.

Definition number_of (v : value) : number :=
  match v with
  | VNum n => n
  | _ => Finite 0
  end.

Definition int (z : Z) : value := VNum (Finite (inject_Z z)).

End JS.

(** ** The SQLite store behind the connection [db] *)

Module SQLite.

(** A row of [items], keyed by its [id INTEGER PRIMARY KEY]. *)
Record item := Item {
  item_name : string;
  item_stock : Z;
  item_price : JS.number
}.

Record purchase := Purchase {
  p_id : Z;
  p_customer_name : string;
  p_shipping_address : string
}.

Record purchase_item := PurchaseItem {
  pi_id : Z;
  pi_purchase_id : Z;
  pi_item_id : Z;
  pi_quantity : Z
}.

(** The three tables of the [CREATE TABLE] statements (l.224-255), each
    with its [AUTOINCREMENT] counter (the table's entry in
    [sqlite_sequence]). *)
Record tables := Tables {
  items : gmap Z item;
  items_seq : Z;
  purchases : list purchase;
  purchases_seq : Z;
  purchase_items : list purchase_item;
  purchase_items_seq : Z
}.

(** The connection: the current content and, inside a transaction, the
    content [ROLLBACK] goes back to. *)
Record database := Database {
  live : tables;
  saved : option tables
}.

(** The statements the handlers issue, with their bound parameters. *)
Inductive stmt :=
| BEGIN_TRANSACTION
| COMMIT
| ROLLBACK
| INSERT_INTO_items (name : string) (stock : Z) (price : JS.number)
| UPDATE_items (name : string) (stock : Z) (price : JS.number) (id : Z)
| INSERT_INTO_purchases (customer_name shipping_address : string)
| INSERT_INTO_purchase_items (purchase_id item_id quantity : Z)
(** [UPDATE items SET stock = stock - ? WHERE id = ? AND stock >= ?] *)
| UPDATE_items_SET_stock (minus : Z) (id : Z) (at_least : Z).

(** What a callback sees: [err], [this.lastID], [this.changes]. *)
Record result := Result {
  err : option string;
  lastID : Z;
  changes : Z
}.

Definition ok (last_id n : Z) : result := Result None last_id n.
Definition failed (e : string) : result := Result (Some e) 0 0.

(** The rowid an [AUTOINCREMENT] table gives a new row: one more than the
    largest rowid the table has or ever had. *)
Definition next_rowid (seq : Z) (ids : list Z) : Z :=
  Z.max seq (foldr Z.max 0 ids) + 1.

Definition set_stock (s : Z) (it : item) : item :=
  Item (item_name it) s (item_price it).

(** Numbers as the store holds them.  A column declared [INTEGER] keeps an
    integral value as a 64-bit integer when it fits and as a double
    ([REAL]) when it does not: [POST /items] accepts a stock such as 1e20
    (l.40), and the store then holds the double.  The driver binds a
    JavaScript number to a [?] as a 32-bit integer when it is one, and as a
    double otherwise. *)
Definition int32 (z : Z) : bool := (- 2 ^ 31 <=? z) && (z <? 2 ^ 31).

Definition int64 (z : Z) : bool := (- 2 ^ 63 <=? z) && (z <? 2 ^ 63).

(** The double nearest to an integer: 53 significant bits, a tie going to
    the even significand.  (No value here is beyond the largest double:
    stocks and quantities come from requests as finite doubles of at
    least zero, and their differences are no larger.) *)
Definition to_double (z : Z) : Z :=
  if Z.abs z <? 2 ^ 53 then z
  else
    let ulp := 2 ^ (Z.log2 (Z.abs z) - 52) in
    let m := Z.abs z / ulp in
    let r := Z.abs z mod ulp in
    let up := (ulp <? 2 * r) || ((2 * r =? ulp) && Z.odd m) in
    Z.sgn z * ((if up then m + 1 else m) * ulp).

(** [stock - ?]: the difference of two 64-bit integers when it is one, and
    the rounded difference of two doubles otherwise. *)
Definition subtract (stock q : Z) : Z :=
  if int64 stock && int32 q && int64 (stock - q) then stock - q
  else to_double (to_double stock - to_double q).

(** The conditional decrement on the [items] table: the new table and the
    number of rows changed.  The comparison [stock >= ?] is exact, also
    between an integer and a double. *)
Definition update_stock (minus id at_least : Z) (its : gmap Z item)
  : gmap Z item * Z :=
  match its !! id with
  | Some it =>
      if at_least <=? item_stock it
      then (<[id := set_stock (subtract (item_stock it) minus) it]> its, 1)
      else (its, 0)
  | None => (its, 0)
  end.

(** A data statement on the tables.  Foreign keys are not enforced: the
    source never turns [PRAGMA foreign_keys] on. *)
Definition exec_tables (s : stmt) (t : tables) : tables * result :=
  match s with
  | INSERT_INTO_items name stock price =>
      let id := next_rowid (items_seq t) (fst <$> map_to_list (items t)) in
      (Tables (<[id := Item name stock price]> (items t)) id
              (purchases t) (purchases_seq t)
              (purchase_items t) (purchase_items_seq t),
       ok id 1)
  | UPDATE_items name stock price id =>
      match items t !! id with
      | Some _ =>
          (Tables (<[id := Item name stock price]> (items t)) (items_seq t)
                  (purchases t) (purchases_seq t)
                  (purchase_items t) (purchase_items_seq t),
           ok 0 1)
      | None => (t, ok 0 0)
      end
  | INSERT_INTO_purchases customer_name shipping_address =>
      let id := next_rowid (purchases_seq t) (p_id <$> purchases t) in
      (Tables (items t) (items_seq t)
              (purchases t ++ [Purchase id customer_name shipping_address]) id
              (purchase_items t) (purchase_items_seq t),
       ok id 1)
  | INSERT_INTO_purchase_items purchase_id item_id quantity =>
      let id := next_rowid (purchase_items_seq t) (pi_id <$> purchase_items t) in
      (Tables (items t) (items_seq t)
              (purchases t) (purchases_seq t)
              (purchase_items t ++ [PurchaseItem id purchase_id item_id quantity]) id,
       ok id 1)
  | UPDATE_items_SET_stock minus id at_least =>
      let '(its, n) := update_stock minus id at_least (items t) in
      (Tables its (items_seq t)
              (purchases t) (purchases_seq t)
              (purchase_items t) (purchase_items_seq t),
       ok 0 n)
  | _ => (t, ok 0 0)
  end.

(** A statement on the connection. *)
Definition exec (s : stmt) (d : database) : database * result :=
  match s with
  | BEGIN_TRANSACTION =>
      match saved d with
      | None => (Database (live d) (Some (live d)), ok 0 0)
      | Some _ => (d, failed "cannot start a transaction within a transaction")
      end
  | COMMIT =>
      match saved d with
      | Some _ => (Database (live d) None, ok 0 0)
      | None => (d, failed "cannot commit - no transaction is active")
      end
  | ROLLBACK =>
      match saved d with
      | Some t => (Database t None, ok 0 0)
      | None => (d, failed "cannot rollback - no transaction is active")
      end
  | _ =>
      let '(t, r) := exec_tables s (live d) in
      (Database t (saved d), r)
  end.

(** Failures of the storage layer itself (I/O error, lock, full disk): the
    statements it fails, with the error it reports.  A failed statement
    leaves the connection as it was. *)
Definition faults := stmt → option string.

Definition no_faults : faults := λ _, None.

Definition exec_with (F : faults) (s : stmt) (d : database)
  : database * result :=
  match F s with
  | Some e => (d, failed e)
  | None => exec s d
  end.

End SQLite.

(** ** Express responses and the asynchronous driver *)

Module Driver.
Import SQLite.

(** The JSON bodies the handlers send. *)
Inductive body :=
| Error (msg : string)               (* { error: msg } *)
| Created (id : Z)                   (* { id: this.lastID } *)
| Updated (n : Z)                    (* { updated: this.changes } *)
| PurchaseCreated (purchase_id : Z). (* { success: true, purchase_id } *)

Record response := Response {
  status : Z;
  content : body
}.

(** The functions passed as callbacks, by the line they start on. *)
Inductive callback :=
| no_callback
| item_inserted                          (* l.52 *)
| item_updated                           (* l.92 *)
| purchase_inserted (items : JS.value)   (* l.133, closed over [items] *)
| stock_updated                          (* l.154 *)
| commit_done (purchaseId : Z).          (* l.171, closed over [purchaseId] *)

(** What a turn of the event loop does to the outside before it ends: it
    hands statements to the driver, sends responses, or ends the process.
    A statement run without a callback that fails makes the driver emit an
    ['error'] event; the server listens to none, so Node.js throws and the
    process is gone. *)
Inductive action :=
| Run (s : stmt) (cb : callback)
| Send (r : response)
| Crash.

(** Synchronous code: it reads and writes the variable [stockError] that
    the callbacks of one request share, and emits actions. *)
Definition sync (A : Type) : Type := bool → A * bool * list action.

#[global] Instance sync_ret : MRet sync := λ A a e, (a, e, []).

#[global] Instance sync_bind : MBind sync := λ A B f m e,
  let '(a, e1, acts1) := m e in
  let '(b, e2, acts2) := f a e1 in
  (b, e2, acts1 ++ acts2).

Definition db_run (s : stmt) (cb : callback) : sync () :=
  λ e, ((), e, [Run s cb]).

Definition send (r : response) : sync () :=
  λ e, ((), e, [Send r]).

Definition get_stockError : sync bool := λ e, (e, e, []).

Definition set_stockError (b : bool) : sync () := λ _, ((), b, []).

Fixpoint for_of {A} (l : list A) (body : A → sync ()) : sync () :=
  match l with
  | [] => mret ()
  | x :: rest => body x ;; for_of rest body
  end.

Definition crash : sync () :=
  λ e, ((), e, [Crash]).

Definition runs (acts : list action) : list (stmt * callback) :=
  omap (λ a, match a with Run s cb => Some (s, cb) | _ => None end) acts.

Definition sends (acts : list action) : list response :=
  omap (λ a, match a with Send r => Some r | _ => None end) acts.

Definition crashes (acts : list action) : bool :=
  existsb (λ a, match a with Crash => true | _ => false end) acts.

(** The process between two turns of the event loop. *)
Record state := State {
  db : database;
  stockError : bool;
  queue : list (stmt * callback);
  sent : list response;
  log : list stmt
}.

End Driver.

(** ** The route handlers of [src/index.js] *)

Module App.
Import JS SQLite Driver.

(** The global error handler (l.258): it logs the error on the server and
    answers with a fixed body. *)
Definition error_handler (e : string) : response :=
  Response 500 (Error "Internal Server Error").

(** [next(err)]; Express also ends up here when a handler throws. *)
Definition next (e : string) : sync () := send (error_handler e).

(** How the checks at the head of a handler end: they let the request
    through, answer 400 with a message, or throw. *)
Inductive verdict :=
| Valid
| Rejected (msg : string)
| Threw (e : string).

(** The checks of [POST /items] (l.33-49) and [PUT /items/:id] (l.72-89),
    which are the same text. *)
Definition validate_item (body : value) : verdict :=
  if nullish body then Threw "TypeError" else
  let name := prop body "name" in
  let stock := prop body "stock" in
  let price := prop body "price" in
  if negb (truthy name) || negb (String.eqb (typeof name) "string")
  then Rejected "Item name is required and must be a string"
  else if negb (Number_isInteger stock) || lt_zero stock
  then Rejected "Stock must be a non-negative integer"
  else if negb (String.eqb (typeof price) "number") || lt_zero price
  then Rejected "Price must be a non-negative number"
  else Valid.

(** [POST /items] (l.32-56) *)
Definition post_items (body : value) : sync () :=
  match validate_item body with
  | Threw e => next e
  | Rejected msg => send (Response 400 (Error msg))
  | Valid =>
      let name := prop body "name" in
      let stock := prop body "stock" in
      let price := prop body "price" in
      db_run (INSERT_INTO_items (text_of name) (int_of stock) (number_of price))
             item_inserted
  end.

(** [PUT /items/:id] (l.71-99); [id] is the row the route parameter
    designates. *)
Definition put_items (id : Z) (body : value) : sync () :=
  match validate_item body with
  | Threw e => next e
  | Rejected msg => send (Response 400 (Error msg))
  | Valid =>
      let name := prop body "name" in
      let stock := prop body "stock" in
      let price := prop body "price" in
      db_run (UPDATE_items (text_of name) (int_of stock) (number_of price) id)
             item_updated
  end.

(** The loop over the lines of a purchase (l.116-125). *)
Fixpoint validate_lines (items : list value) : verdict :=
  match items with
  | [] => Valid
  | item :: rest =>
      if nullish item then Threw "TypeError" else
      if negb (truthy (prop item "item_id"))
         || negb (Number_isInteger (prop item "item_id"))
      then Rejected "Item ID must be an integer"
      else if negb (Number_isInteger (prop item "quantity"))
              || le_zero (prop item "quantity")
      then Rejected "Quantity must be a positive integer"
      else validate_lines rest
  end.

(** The checks of [POST /purchases] (l.103-125). *)
Definition validate_purchase (body : value) : verdict :=
  if nullish body then Threw "TypeError" else
  let customer_name := prop body "customer_name" in
  let shipping_address := prop body "shipping_address" in
  let items := prop body "items" in
  if negb (truthy customer_name)
     || negb (String.eqb (typeof customer_name) "string")
  then Rejected "Customer name is required"
  else if negb (truthy shipping_address)
          || negb (String.eqb (typeof shipping_address) "string")
  then Rejected "Shipping address is required"
  else if negb (Array_isArray items) || (length (elements items) =? 0)%nat
  then Rejected "At least one item is required"
  else validate_lines (elements items).

(** [POST /purchases] up to the end of [db.serialize] (l.102-132, 180). *)
Definition post_purchases (body : value) : sync () :=
  match validate_purchase body with
  | Threw e => next e
  | Rejected msg => send (Response 400 (Error msg))
  | Valid =>
      let customer_name := prop body "customer_name" in
      let shipping_address := prop body "shipping_address" in
      let items := prop body "items" in
      db_run BEGIN_TRANSACTION no_callback ;;
      db_run (INSERT_INTO_purchases (text_of customer_name)
                                    (text_of shipping_address))
             (purchase_inserted items)
  end.

(** The callback of the header insert (l.133-178).  The two prepared
    statements are run once per line; [stockError] is read at l.164, before
    this function returns. *)
Definition on_purchase_inserted (items : value) (res : result) : sync () :=
  match err res with
  | Some e =>
      db_run ROLLBACK no_callback ;;
      next e
  | None =>
      let purchaseId := lastID res in
      set_stockError false ;;
      for_of (elements items) (λ item,
        let item_id := prop item "item_id" in
        let quantity := prop item "quantity" in
        db_run (INSERT_INTO_purchase_items purchaseId (int_of item_id)
                                           (int_of quantity))
               no_callback ;;
        db_run (UPDATE_items_SET_stock (int_of quantity) (int_of item_id)
                                       (int_of quantity))
               stock_updated) ;;
      stockError ← get_stockError ;
      if stockError : bool
      then
        db_run ROLLBACK no_callback ;;
        send (Response 400 (Error "Insufficient stock or invalid item"))
      else
        db_run COMMIT (commit_done purchaseId)
  end.

(** The body of each callback. *)
Definition call (cb : callback) (res : result) : sync () :=
  match cb with
  | no_callback =>
      match err res with
      | Some _ => crash
      | None => mret ()
      end
  | item_inserted =>
      match err res with
      | Some e => next e
      | None => send (Response 201 (Created (lastID res)))
      end
  | item_updated =>
      match err res with
      | Some e => next e
      | None =>
          if changes res =? 0
          then send (Response 404 (Error "Item not found"))
          else send (Response 200 (Updated (changes res)))
      end
  | purchase_inserted items => on_purchase_inserted items res
  | stock_updated =>
      if bool_decide (is_Some (err res)) || (changes res =? 0)
      then set_stockError true
      else mret ()
  | commit_done purchaseId =>
      match err res with
      | Some e =>
          db_run ROLLBACK no_callback ;;
          next e
      | None => send (Response 201 (PurchaseCreated purchaseId))
      end
  end.

(** What the database file holds once the process is gone: SQLite undoes
    the transaction that was open. *)
Definition recover (d : database) : database :=
  match saved d with
  | Some t => Database t None
  | None => d
  end.

(** One turn of the event loop, for the schedule in which the driver
    executes the statements in the order they were issued: the oldest
    queued statement is executed, then its callback runs to completion.
    What the callback issues joins the queue behind what is already
    waiting; the variable [stockError] is whatever the callbacks run so far
    have left in it.  When the process ends, nothing of the queue is
    executed any more. *)
Definition step (F : faults) (st : state) : state :=
  match queue st with
  | [] => st
  | (s, cb) :: rest =>
      let '(d, res) := exec_with F s (db st) in
      let '(_, e, acts) := call cb res (stockError st) in
      if crashes acts
      then State (recover d) e [] (sent st ++ sends acts) (log st ++ [s])
      else State d e (rest ++ runs acts) (sent st ++ sends acts)
                 (log st ++ [s])
  end.

Fixpoint turns (n : nat) (F : faults) (st : state) : state :=
  match n with
  | O => st
  | S n => turns n F (step F st)
  end.

(** A bound on the statements a callback can cause to be issued. *)
Definition weight (cb : callback) : nat :=
  match cb with
  | purchase_inserted items => 2 * length (elements items) + 2
  | commit_done _ => 1
  | _ => 0
  end.

Definition work (q : list (stmt * callback)) : nat :=
  sum_list_with (λ p, S (weight p.2)) q.

(** A request from its arrival to the moment the queue is empty: the
    handler runs, then the event loop turns. *)
Definition serve (F : faults) (handler : sync ()) (d : database) : state :=
  let '(_, e, acts) := handler false in
  turns (work (runs acts)) F (State d e (runs acts) (sends acts) []).

End App.

(** ** The driver in parallel mode *)

Module Parallel.
Import JS SQLite Driver App.

(** The callback of the header insert (l.133-178) runs once
    [db.serialize] has returned, so what it issues is executed in the
    driver's parallel mode: each [Statement] object executes its own runs
    one after the other, in the order of the calls, and nothing orders
    the runs of two objects.  The objects of a purchase are
    [insertPurchaseItem] (l.141), [updateStock] (l.146) and one of its own
    for each [db.run].  What the handler itself issues, inside
    [db.serialize], is executed in the order issued. *)

Abbreviation chain := (list (stmt * callback)).

(** The process between two turns of the event loop: the statements that
    wait, by the object they wait on. *)
Record pool := Pool {
  pool_db : database;
  pool_stockError : bool;
  waiting : list chain;
  pool_sent : list response;
  pool_log : list stmt
}.

(** The object a statement issued by a callback is run on. *)
Definition of_insertPurchaseItem (p : stmt * callback) : bool :=
  match p.1 with
  | INSERT_INTO_purchase_items _ _ _ => true
  | _ => false
  end.

Definition of_updateStock (p : stmt * callback) : bool :=
  match p.1 with
  | UPDATE_items_SET_stock _ _ _ => true
  | _ => false
  end.

Definition of_db_run (p : stmt * callback) : bool :=
  negb (of_insertPurchaseItem p) && negb (of_updateStock p).

(** What a callback has issued, by object and in the order of the calls. *)
Definition chains_of (q : list (stmt * callback)) : list chain :=
  List.filter (λ c : chain, negb (Nat.eqb (length c) 0))
    ([List.filter of_insertPurchaseItem q; List.filter of_updateStock q]
     ++ ((λ p, [p]) <$> List.filter of_db_run q)).

(** One turn of the event loop: the driver executes the oldest statement
    waiting on the object [k], then its callback runs to completion.  An
    object with nothing waiting gives no turn. *)
Definition run_next (F : faults) (st : pool) (k : nat) : pool :=
  match waiting st !! k with
  | Some ((s, cb) :: rest) =>
      let '(d, res) := exec_with F s (pool_db st) in
      let '(_, e, acts) := call cb res (pool_stockError st) in
      if crashes acts
      then Pool (recover d) e [] (pool_sent st ++ sends acts)
                (pool_log st ++ [s])
      else Pool d e (<[k := rest]> (waiting st) ++ chains_of (runs acts))
                (pool_sent st ++ sends acts) (pool_log st ++ [s])
  | _ => st
  end.

(** A schedule: the objects whose turn it is, one after the other. *)
Definition run (F : faults) (picks : list nat) (st : pool) : pool :=
  foldl (run_next F) st picks.

(** The process when the handler has returned. *)
Definition start (handler : sync ()) (d : database) : pool :=
  let '(_, e, acts) := handler false in
  Pool d e [runs acts] (sends acts) [].

(** Nothing waits any more. *)
Definition finished (st : pool) : Prop :=
  Forall (λ c, c = []) (waiting st).

End Parallel.

(** ** Vocabulary of the properties *)

Import JS SQLite Driver App Parallel.

(** The integer and the number a JSON value stands for. *)
Definition positive_integer (v : value) : Prop :=
  Number_isInteger v = true ∧ 0 < int_of v.

Definition nonzero_integer (v : value) : Prop :=
  Number_isInteger v = true ∧ int_of v ≠ 0.

Definition nonneg_integer (v : value) : Prop :=
  Number_isInteger v = true ∧ 0 ≤ int_of v.

Definition number_nonneg (n : number) : Prop :=
  match n with
  | Finite q => (0 <= q)%Q
  | Infinite negative => negative = false
  end.

Definition nonneg_number (v : value) : Prop :=
  ∃ n, v = VNum n ∧ number_nonneg n.

Definition nonempty_text (v : value) : Prop :=
  ∃ s, v = VStr s ∧ s ≠ "".

Definition nonempty_array (v : value) : Prop :=
  ∃ l, v = VArr l ∧ l ≠ [].

(** The lines of a request as the driver binds them: item and quantity. *)
Definition line_of (item : value) : Z * Z :=
  (int_of (prop item "item_id"), int_of (prop item "quantity")).

Definition lines_of (body : value) : list (Z * Z) :=
  line_of <$> elements (prop body "items").


(** Every line, when its turn comes, finds its item with enough stock. *)
Fixpoint lines_in_stock (its : gmap Z item) (lines : list (Z * Z)) : Prop :=
  match lines with
  | [] => True
  | (i, q) :: rest =>
      ∃ it, its !! i = Some it ∧ q ≤ item_stock it ∧
            lines_in_stock (<[i := set_stock (item_stock it - q) it]> its) rest
  end.


Definition stocks_nonneg (its : gmap Z item) : Prop :=
  ∀ j it, its !! j = Some it → 0 ≤ item_stock it.

Definition db_nonneg (d : database) : Prop :=
  stocks_nonneg (items (live d)) ∧
  ∀ t, saved d = Some t → stocks_nonneg (items t).

(** No transaction is open on the connection. *)
Definition idle (d : database) : Prop := saved d = None.

(** The statements that cannot break the floor: an item is written with a
    stock of at least zero, and the conditional decrement takes no more
    than the amount it tests for. *)
Definition safe_stmt (s : stmt) : Prop :=
  match s with
  | INSERT_INTO_items _ stock _ => 0 ≤ stock
  | UPDATE_items _ stock _ _ => 0 ≤ stock
  | UPDATE_items_SET_stock minus _ at_least => minus ≤ at_least
  | _ => True
  end.

Definition safe_queue (q : list (stmt * callback)) : Prop :=
  Forall (λ p, safe_stmt p.1) q.

(** What the loop of l.152-159 hands to the driver for one line. *)
Definition line_actions (purchaseId : Z) (item : value) : list action :=
  [Run (INSERT_INTO_purchase_items purchaseId (line_of item).1
                                   (line_of item).2) no_callback;
   Run (UPDATE_items_SET_stock (line_of item).2 (line_of item).1
                               (line_of item).2) stock_updated].

Definition line_stmts (purchaseId : Z) (item : value) : list stmt :=
  [INSERT_INTO_purchase_items purchaseId (line_of item).1 (line_of item).2;
   UPDATE_items_SET_stock (line_of item).2 (line_of item).1 (line_of item).2].

(** The tables after one line and after a list of lines: the row is
    recorded, then the stock is taken if it is there. *)
Definition book_line (purchaseId : Z) (t : tables) (l : Z * Z) : tables :=
  (exec_tables (UPDATE_items_SET_stock l.2 l.1 l.2)
     (exec_tables (INSERT_INTO_purchase_items purchaseId l.1 l.2) t).1).1.

Definition book (purchaseId : Z) (lines : list (Z * Z)) (t : tables) : tables :=
  foldl (book_line purchaseId) t lines.

(** The storage layer fails nothing but, possibly, [COMMIT]. *)
Definition only_commit_fails (F : faults) : Prop :=
  ∀ s, s ≠ COMMIT → F s = None.

Definition commit_fails (e : string) : faults :=
  λ s, match s with COMMIT => Some e | _ => None end.

(** The statements of a purchase up to the commit, in the order issued. *)
Definition purchase_stmts (body : value) (pid : Z) : list stmt :=
  [BEGIN_TRANSACTION;
   INSERT_INTO_purchases (text_of (prop body "customer_name"))
                         (text_of (prop body "shipping_address"))]
  ++ (elements (prop body "items") ≫= line_stmts pid)
  ++ [COMMIT].

(** The identifier the next purchase header gets. *)
Definition next_purchase_id (t : tables) : Z :=
  next_rowid (purchases_seq t) (p_id <$> purchases t).

(** The tables once the header and all lines of [body] are written. *)
Definition booked (body : value) (t : tables) : tables :=
  book (next_purchase_id t) (lines_of body)
       (exec_tables
          (INSERT_INTO_purchases (text_of (prop body "customer_name"))
                                 (text_of (prop body "shipping_address"))) t).1.

(** The header row of a request. *)
Definition header (id : Z) (body : value) : purchase :=
  Purchase id (text_of (prop body "customer_name"))
              (text_of (prop body "shipping_address")).

(** The validator answers 400. *)
Definition rejects (body : value) : Prop :=
  ∃ msg, validate_purchase body = Rejected msg.

(** When a purchase request is invalid, in the words of the specification:
    an item identifier has to be a positive integer. *)
Definition invalid_as_specified (body : value) : Prop :=
  ¬ nonempty_text (prop body "customer_name")
  ∨ ¬ nonempty_text (prop body "shipping_address")
  ∨ ¬ nonempty_array (prop body "items")
  ∨ ∃ item, item ∈ elements (prop body "items") ∧
            (¬ positive_integer (prop item "item_id")
             ∨ ¬ positive_integer (prop item "quantity")).

(** The same with the condition on the item identifier that l.117 tests:
    an integer other than zero. *)
Definition invalid_as_checked (body : value) : Prop :=
  ¬ nonempty_text (prop body "customer_name")
  ∨ ¬ nonempty_text (prop body "shipping_address")
  ∨ ¬ nonempty_array (prop body "items")
  ∨ ∃ item, item ∈ elements (prop body "items") ∧
            (¬ nonzero_integer (prop item "item_id")
             ∨ ¬ positive_integer (prop item "quantity")).

Definition bad_line (item : value) : Prop :=
  ¬ nonzero_integer (prop item "item_id")
  ∨ ¬ positive_integer (prop item "quantity").

(** An item request the create and update endpoints have to refuse. *)
Definition invalid_item (body : value) : Prop :=
  (¬ ∃ s, prop body "name" = VStr s)
  ∨ ¬ nonneg_integer (prop body "stock")
  ∨ ¬ nonneg_number (prop body "price").

(** A statement that writes an item writes a stock and a price of at
    least zero. *)
Definition writes_nonneg (s : stmt) : Prop :=
  match s with
  | INSERT_INTO_items _ stock price => 0 ≤ stock ∧ number_nonneg price
  | UPDATE_items _ stock price _ => 0 ≤ stock ∧ number_nonneg price
  | _ => True
  end.

(** The storage layer fails none of the statements that are run without a
    callback (l.128, 135, 153, 165, 173). *)
Definition heard (F : faults) : Prop :=
  F BEGIN_TRANSACTION = None
  ∧ F ROLLBACK = None
  ∧ ∀ purchase_id item_id quantity,
      F (INSERT_INTO_purchase_items purchase_id item_id quantity) = None.

(** What waits on [insertPurchaseItem] and on [updateStock] when the
    callback of the header insert has returned. *)
Definition line_inserts (pid : Z) (l : list value) : chain :=
  (λ item, (INSERT_INTO_purchase_items pid (line_of item).1 (line_of item).2,
            no_callback)) <$> l.

Definition line_updates (l : list value) : chain :=
  (λ item, (UPDATE_items_SET_stock (line_of item).2 (line_of item).1
                                   (line_of item).2,
            stock_updated)) <$> l.

(** The tables when the first [a] rows are recorded and the first [b]
    decrements done. *)
Definition partly (pid : Z) (lines : list (Z * Z)) (a b : nat) (t : tables)
  : tables :=
  Tables (items (book pid (take b lines) t)) (items_seq t)
         (purchases t) (purchases_seq t)
         (purchase_items (book pid (take a lines) t))
         (purchase_items_seq (book pid (take a lines) t)).

(** The header insert of a request. *)
Definition header_stmt (body : value) : stmt :=
  INSERT_INTO_purchases (text_of (prop body "customer_name"))
                        (text_of (prop body "shipping_address")).

(** A purchase whose header is written: [a] rows are recorded, [b]
    decrements are done, and [COMMIT] has run or not. *)
Definition underway (body : value) (d : database) (st : pool) : Prop :=
  let l := elements (prop body "items") in
  let pid := next_purchase_id (live d) in
  ∃ (a b : nat) (c : bool),
    pool_db st
    = Database (partly pid (lines_of body) a b
                  (exec_tables (header_stmt body) (live d)).1)
               (if c then None else Some (live d))
    ∧ waiting st
      = [[]; drop a (line_inserts pid l); drop b (line_updates l);
         if c then [] else [(COMMIT, commit_done pid)]]
    ∧ pool_sent st
      = (if c then [Response 201 (PurchaseCreated pid)] else [])
    ∧ ROLLBACK ∉ pool_log st.

(** The process while it serves a purchase that passed the checks, with
    no storage failure. *)
Definition course (body : value) (d : database) (st : pool) : Prop :=
  st = Pool d false
         [[(BEGIN_TRANSACTION, no_callback);
           (header_stmt body, purchase_inserted (prop body "items"))]] [] []
  ∨ st = Pool (Database (live d) (Some (live d))) false
           [[(header_stmt body, purchase_inserted (prop body "items"))]] []
           [BEGIN_TRANSACTION]
  ∨ underway body d st.

(** *** Sample data: the scenarios of the specification *)

Definition line (item_id quantity : Z) : value :=
  VObj [("item_id", int item_id); ("quantity", int quantity)].

Definition order (lines : list value) : value :=
  VObj [("customer_name", VStr "Ada");
        ("shipping_address", VStr "1 Main St");
        ("items", VArr lines)].

(** A store with the single item 1, priced 5.00. *)
Definition shop (stock : Z) : database :=
  Database (Tables {[ 1 := Item "pen" stock (Finite 5) ]} 1 [] 0 [] 0) None.

(** Six lines of one pen each. *)
Definition six_pens : value :=
  order [line 1 1; line 1 1; line 1 1; line 1 1; line 1 1; line 1 1].

Definition new_item (stock : Z) (price : Q) : value :=
  VObj [("name", VStr "ink"); ("stock", int stock);
        ("price", VNum (Finite price))].
(** ** The remaining routes of [src/index.js] *)

From stdpp Require sorting.

Module Routes.
Import JS SQLite Driver App.

(** *** [GET /items] and [DELETE /items/:id] *)

(** [SELECT * FROM items]: the rows of the table, by ascending [id], as a
    scan of a rowid table yields them. *)
Definition id_le (a b : Z * item) : Prop := a.1 ≤ b.1.

#[global] Instance id_le_dec : RelDecision id_le.
Proof. intros a b. unfold id_le. apply _. Defined.

Definition select_items (t : tables) : list (Z * item) :=
  sorting.merge_sort id_le (map_to_list (items t)).

(** [DELETE FROM items WHERE id = ?]: the tables and [this.changes].  No
    foreign key is enforced, so the lines of past purchases stay. *)
Definition delete_from_items (id : Z) (t : tables) : tables * result :=
  match items t !! id with
  | Some _ =>
      (Tables (delete id (items t)) (items_seq t)
              (purchases t) (purchases_seq t)
              (purchase_items t) (purchase_items_seq t),
       ok 0 1)
  | None => (t, ok 0 0)
  end.

(** *** [GET /purchases] *)

(** A row of the join of l.185-197. *)
Record history_row := HistoryRow {
  h_purchase_id : Z;
  h_customer_name : string;
  h_date : string;
  h_item_name : string;
  h_price : number;
  h_quantity : Z
}.

(** An entry of [items] and a value of [grouped] (l.205-216). *)
Record sold := Sold {
  s_name : string;
  s_price : number;
  s_quantity : Z
}.

Record group := Group {
  g_id : Z;
  g_customer_name : string;
  g_date : string;
  g_items : list sold
}.

(** The object [grouped]: its own properties in the order of their
    creation, under the key [row.purchase_id]. *)
Abbreviation object := (list (Z * group)).

(** [grouped[k]], [undefined] being [None]. *)
Fixpoint get (k : Z) (o : object) : option group :=
  match o with
  | [] => None
  | (k', g) :: rest => if k =? k' then Some g else get k rest
  end.

(** [grouped[k].items.push(x)] *)
Fixpoint push (k : Z) (x : sold) (o : object) : object :=
  match o with
  | [] => []
  | (k', g) :: rest =>
      if k =? k'
      then (k', Group (g_id g) (g_customer_name g) (g_date g)
                      (g_items g ++ [x])) :: rest
      else (k', g) :: push k x rest
  end.

(** The body of [rows.forEach] (l.203-217). *)
Definition add_row (grouped : object) (row : history_row) : object :=
  let grouped :=
    match get (h_purchase_id row) grouped with
    | None =>
        grouped ++ [(h_purchase_id row,
                     Group (h_purchase_id row) (h_customer_name row)
                           (h_date row) [])]
    | Some _ => grouped
    end in
  push (h_purchase_id row)
       (Sold (h_item_name row) (h_price row) (h_quantity row)) grouped.

Definition group_rows (rows : list history_row) : object :=
  foldl add_row [] rows.

(** A key that is an array index: a whole number below 2^32 - 1. *)
Definition is_index (k : Z) : bool := (0 <=? k) && (k <? 2 ^ 32 - 1).

Definition key_le (a b : Z * group) : Prop := a.1 ≤ b.1.

#[global] Instance key_le_dec : RelDecision key_le.
Proof. intros a b. unfold key_le. apply _. Defined.

(** [Object.values(grouped)]: the properties whose key is an array index
    first, by ascending key, then the others in the order of their
    creation. *)
Definition Object_values (o : object) : list group :=
  (sorting.merge_sort key_le (filter (λ p, is_index p.1 = true) o)
   ++ filter (λ p, is_index p.1 ≠ true) o).*2.

Definition newer (a b : purchase) : Prop := p_id b ≤ p_id a.

#[global] Instance newer_dec : RelDecision newer.
Proof. intros a b. unfold newer. apply _. Defined.

(** The replies of these routes. *)
Inductive reply :=
| Json (r : response)
| ItemRows (rows : list (Z * item))   (* res.json(rows), l.27 *)
| NoContent                           (* res.status(204).end(), l.66 *)
| History (groups : list group).      (* res.json(Object.values(grouped)) *)

(** The callbacks of l.25, l.61 and l.199. *)
Definition on_items (err : option string) (rows : list (Z * item)) : reply :=
  match err with
  | Some e => Json (error_handler e)
  | None => ItemRows rows
  end.

Definition on_deleted (res : result) : reply :=
  match err res with
  | Some e => Json (error_handler e)
  | None =>
      if changes res =? 0
      then Json (Response 404 (Error "Item not found"))
      else NoContent
  end.

Definition on_history (err : option string) (rows : list history_row)
  : reply :=
  match err with
  | Some e => Json (error_handler e)
  | None => History (Object_values (group_rows rows))
  end.

(** [GET /items] (l.24-29); [fault] is the error of the storage layer, if
    it fails the statement. *)
Definition get_items (fault : option string) (d : database) : reply :=
  match fault with
  | Some e => on_items (Some e) []
  | None => on_items None (select_items (live d))
  end.

(** [DELETE /items/:id] (l.59-68); [id] is the row the route parameter
    designates. *)
Definition delete_items (fault : option string) (id : Z) (d : database)
  : database * reply :=
  match fault with
  | Some e => (d, on_deleted (failed e))
  | None =>
      let '(t, res) := delete_from_items id (live d) in
      (Database t (saved d), on_deleted res)
  end.

Section History.
(** The [date] column of [purchases], which the tables of this file leave
    out: the text stored for the purchase with a given [id]. *)
Variable date_of : Z → string.

(** The join of l.185-197, newest purchase first; within a purchase, its
    lines in table order.  A line whose item is not in [items] gives no
    row, a purchase without such a line gives none either. *)
Definition joined (t : tables) : list history_row :=
  p ← sorting.merge_sort newer (purchases t);
  li ← purchase_items t;
  if decide (pi_purchase_id li = p_id p)
  then match items t !! pi_item_id li with
       | Some it =>
           [HistoryRow (p_id p) (p_customer_name p) (date_of (p_id p))
                       (item_name it) (item_price it) (pi_quantity li)]
       | None => []
       end
  else [].

(** [GET /purchases] (l.184-221) *)
Definition get_purchases (fault : option string) (d : database) : reply :=
  match fault with
  | Some e => on_history (Some e) []
  | None => on_history None (joined (live d))
  end.
End History.

End Routes.

(** ** Vocabulary of the further properties *)

(** The responses a callback still has to send, itself and through the
    statements it issues. *)
Definition owes (cb : callback) : nat :=
  match cb with
  | no_callback => 0
  | stock_updated => 0
  | _ => 1
  end.

Definition owed (q : list (stmt * callback)) : nat :=
  sum_list_with (λ p, owes p.2) q.

(** The answer of l.166-168. *)
Definition no_stock_answer : response :=
  Response 400 (Error "Insufficient stock or invalid item").

Definition server_error : response :=
  Response 500 (Error "Internal Server Error").

(** The messages of the checks of [POST /purchases]. *)
Definition purchase_messages : list string :=
  ["Customer name is required"; "Shipping address is required";
   "At least one item is required"; "Item ID must be an integer";
   "Quantity must be a positive integer"].

(** A line the loop of l.116-125 lets through. *)
Definition good_line (item : value) : Prop :=
  nullish item = false
  ∧ nonzero_integer (prop item "item_id")
  ∧ positive_integer (prop item "quantity").

(** The item a request to [POST /items] or [PUT /items/:id] describes. *)
Definition item_of (body : value) : item :=
  Item (text_of (prop body "name")) (int_of (prop body "stock"))
       (number_of (prop body "price")).

(** The identifier the next item gets. *)
Definition next_item_id (t : tables) : Z :=
  next_rowid (items_seq t) ((map_to_list (items t)).*1).

(** What the queue of a purchase holds: no callback of the item routes,
    and the callback of l.171 only on a [COMMIT]. *)
Definition purchase_entry (p : stmt * callback) : Prop :=
  match p.2 with
  | item_inserted => False
  | item_updated => False
  | commit_done _ => p.1 = COMMIT
  | _ => True
  end.

(** What a purchase that passed the checks can be answered. *)
Definition purchase_answer (r : response) : Prop :=
  r = server_error ∨ ∃ pid, r = Response 201 (PurchaseCreated pid).

(** The invariant of the event loop while it serves a purchase. *)
Definition purchase_course (st : state) : Prop :=
  Forall purchase_entry (queue st)
  ∧ Forall purchase_answer (sent st)
  ∧ (ROLLBACK ∈ log st ∨ ROLLBACK ∈ (queue st).*1 → server_error ∈ sent st)
  ∧ (∀ pid, Response 201 (PurchaseCreated pid) ∈ sent st → COMMIT ∈ log st).

(** An item as the data model wants it, and a store all of whose items,
    current and saved, are so. *)
Definition item_ok (it : item) : Prop :=
  0 ≤ item_stock it ∧ number_nonneg (item_price it).

Definition items_ok (its : gmap Z item) : Prop :=
  ∀ j it, its !! j = Some it → item_ok it.

Definition db_ok (d : database) : Prop :=
  items_ok (items (live d)) ∧ ∀ t, saved d = Some t → items_ok (items t).

(** The statements that keep it so. *)
Definition sound_stmt (s : stmt) : Prop :=
  match s with
  | INSERT_INTO_items _ stock price => 0 ≤ stock ∧ number_nonneg price
  | UPDATE_items _ stock price _ => 0 ≤ stock ∧ number_nonneg price
  | UPDATE_items_SET_stock minus _ at_least => minus ≤ at_least
  | _ => True
  end.

(** A request to one of the routes that write, with the failures of the
    storage layer while it is served. *)
Inductive request :=
| PostItem (F : faults) (body : value)
| PutItem (F : faults) (id : Z) (body : value)
| DeleteItem (fault : option string) (id : Z)
| PostPurchase (F : faults) (body : value).

(** The connection once the request is served. *)
Definition after (d : database) (r : request) : database :=
  match r with
  | PostItem F body => db (serve F (post_items body) d)
  | PutItem F id body => db (serve F (put_items id body) d)
  | DeleteItem fault id => (Routes.delete_items fault id d).1
  | PostPurchase F body => db (serve F (post_purchases body) d)
  end.

(** The entry of [items] a row of the join gives, the rows of one
    purchase, and the group they make: the head of the first row and one
    entry per row. *)
Definition sold_of (r : Routes.history_row) : Routes.sold :=
  Routes.Sold (Routes.h_item_name r) (Routes.h_price r) (Routes.h_quantity r).

Definition rows_of (k : Z) (rows : list Routes.history_row)
  : list Routes.history_row :=
  filter (λ r, Routes.h_purchase_id r = k) rows.

Definition group_of (k : Z) (rows : list Routes.history_row)
  : option Routes.group :=
  match rows_of k rows with
  | [] => None
  | r :: rest =>
      Some (Routes.Group k (Routes.h_customer_name r) (Routes.h_date r)
                         (sold_of <$> r :: rest))
  end.

(** ** Lemmas *)

(** *** Integers and doubles *)

Lemma to_double_small z : Z.abs z < 2 ^ 53 → to_double z = z.
Proof.
  intros Hz. unfold to_double.
  destruct (Z.ltb_spec (Z.abs z) (2 ^ 53)); [done | lia].
Qed.

Lemma to_double_opp z : to_double (- z) = - to_double z.
Proof.
  unfold to_double. rewrite Z.abs_opp, Z.sgn_opp.
  destruct (Z.abs z <? 2 ^ 53); [done|]. cbv zeta. lia.
Qed.

(** The shape of a rounded value of 2^53 or more. *)
Lemma to_double_large z :
  2 ^ 53 ≤ z →
  ∃ e m r up,
    0 ≤ e ∧ z = m * 2 ^ (e + 1) + r ∧ 0 ≤ r < 2 ^ (e + 1)
    ∧ 2 ^ 52 ≤ m < 2 ^ 53
    ∧ Z.log2 z = e + 53
    ∧ (up = 0 ∨ up = 1)
    ∧ (up = 1 ↔ 2 ^ (e + 1) < 2 * r ∨ (2 * r = 2 ^ (e + 1) ∧ Z.odd m = true))
    ∧ to_double z = (m + up) * 2 ^ (e + 1).
Proof.
  intros Hz.
  assert (0 < 2 ^ 53) as H53 by (by apply Z.pow_pos_nonneg).
  assert (0 < z) as Hpos by lia.
  destruct (Z.log2_spec z Hpos) as [Hlo Hhi].
  assert (53 ≤ Z.log2 z) as Hlog.
  { apply Z.log2_le_pow2; lia. }
  set (e := Z.log2 z - 53).
  assert (0 ≤ e) as He by lia.
  assert (0 < 2 ^ (e + 1)) as Hulp by (apply Z.pow_pos_nonneg; lia).
  assert (2 ^ Z.log2 z = 2 ^ 52 * 2 ^ (e + 1)) as Hlo'.
  { rewrite <- Z.pow_add_r by lia. f_equal. lia. }
  assert (2 ^ Z.succ (Z.log2 z) = 2 ^ 53 * 2 ^ (e + 1)) as Hhi'.
  { rewrite <- Z.pow_add_r by lia. f_equal. lia. }
  pose proof (Z.div_mod z (2 ^ (e + 1)) ltac:(lia)) as Hdm.
  pose proof (Z.mod_pos_bound z (2 ^ (e + 1)) Hulp) as Hr.
  set (m := z / 2 ^ (e + 1)) in *. set (r := z mod 2 ^ (e + 1)) in *.
  assert (2 ^ 52 ≤ m < 2 ^ 53) as Hm.
  { assert (0 < 2 ^ 52) by (by apply Z.pow_pos_nonneg). nia. }
  set (up := (2 ^ (e + 1) <? 2 * r) || ((2 * r =? 2 ^ (e + 1)) && Z.odd m)).
  exists e, m, r, (if up then 1 else 0).
  split_and!; try done; try lia.
  - destruct up; auto.
  - subst up. destruct (Z.ltb_spec (2 ^ (e + 1)) (2 * r));
      destruct (Z.eqb_spec (2 * r) (2 ^ (e + 1)));
      destruct (Z.odd m); simpl; split; try tauto; try lia;
      intros [?|[? ?]]; try lia; done.
  - unfold to_double. rewrite Z.abs_eq, Z.sgn_pos by lia.
    destruct (Z.ltb_spec z (2 ^ 53)); [lia|]. cbv zeta.
    replace (Z.log2 z - 52) with (e + 1) by lia.
    fold m r up. destruct up; lia.
Qed.

Lemma to_double_nonneg z : 0 ≤ z → 0 ≤ to_double z.
Proof.
  intros Hz. destruct (Z.lt_ge_cases z (2 ^ 53)) as [Hlt|Hge].
  - rewrite to_double_small; lia.
  - destruct (to_double_large z Hge)
      as (e & m & r & up & He & _ & _ & Hm & _ & Hup & _ & ->).
    assert (0 < 2 ^ (e + 1)) by (apply Z.pow_pos_nonneg; lia).
    assert (0 < 2 ^ 52) by (by apply Z.pow_pos_nonneg). nia.
Qed.

Lemma to_double_mono_nonneg a b : 0 ≤ a → a ≤ b → to_double a ≤ to_double b.
Proof.
  intros Ha Hab.
  assert (0 < 2 ^ 52) as H52 by (by apply Z.pow_pos_nonneg).
  assert (2 ^ 53 = 2 * 2 ^ 52) as H53 by reflexivity.
  destruct (Z.lt_ge_cases b (2 ^ 53)) as [Hb|Hb].
  { rewrite !to_double_small; lia. }
  destruct (to_double_large b Hb)
    as (eb & mb & rb & ub & Heb & Hbeq & Hrb & Hmb & Hlb & Hub & Hupb & ->).
  assert (0 < 2 ^ (eb + 1)) as Hpb by (apply Z.pow_pos_nonneg; lia).
  assert (2 ^ (eb + 1) = 2 * 2 ^ eb) as Hsb by (rewrite Z.pow_add_r by lia; lia).
  assert (0 < 2 ^ eb) as Hpb' by (apply Z.pow_pos_nonneg; lia).
  destruct (Z.lt_ge_cases a (2 ^ 53)) as [Ha'|Ha'].
  { rewrite to_double_small by lia. nia. }
  destruct (to_double_large a Ha')
    as (ea & ma & ra & ua & Hea & Haeq & Hra & Hma & Hla & Hua & Hupa & ->).
  assert (0 < 2 ^ (ea + 1)) as Hpa by (apply Z.pow_pos_nonneg; lia).
  assert (ea ≤ eb) as Hle.
  { pose proof (Z.log2_le_mono a b Hab). lia. }
  destruct (Z.eq_dec ea eb) as [->|Hne].
  - destruct (Z.lt_trichotomy ma mb) as [Hlt|[->|Hgt]]; [nia| |nia].
    assert (ra ≤ rb) by nia.
    assert (ua = 1 → ub = 1) as Himp.
    { rewrite Hupa, Hupb. intros [?|[? ?]]; [left; lia|].
      destruct (Z.eq_dec ra rb) as [->|?]; [by right | left; lia]. }
    assert (ua ≤ ub) by lia. nia.
  - assert (2 ^ (eb + 1) = 2 ^ (eb - ea) * 2 ^ (ea + 1)) as Hsplit.
    { rewrite <- Z.pow_add_r by lia. f_equal. lia. }
    assert (2 ≤ 2 ^ (eb - ea)) as Hgap.
    { change 2 with (2 ^ 1) at 1. apply Z.pow_le_mono_r; lia. }
    nia.
Qed.

Lemma to_double_mono a b : a ≤ b → to_double a ≤ to_double b.
Proof.
  intros Hab. destruct (Z.le_gt_cases 0 a) as [Ha|Ha].
  - by apply to_double_mono_nonneg.
  - destruct (Z.le_gt_cases 0 b) as [Hb|Hb].
    + pose proof (to_double_nonneg b Hb).
      pose proof (to_double_nonneg (- a) ltac:(lia)) as Hna.
      rewrite to_double_opp in Hna. lia.
    + pose proof (to_double_mono_nonneg (- b) (- a) ltac:(lia) ltac:(lia)) as H.
      rewrite !to_double_opp in H. lia.
Qed.

Lemma subtract_exact s q : 0 ≤ q → q ≤ s → s < 2 ^ 53 → subtract s q = s - q.
Proof.
  intros Hq Hle Hs. unfold subtract.
  destruct (int64 s && int32 q && int64 (s - q)); [done|].
  rewrite (to_double_small s), (to_double_small q), to_double_small; lia.
Qed.

Lemma subtract_nonneg s q : q ≤ s → 0 ≤ subtract s q.
Proof.
  intros Hle. unfold subtract.
  destruct (int64 s && int32 q && int64 (s - q)); [lia|].
  apply to_double_nonneg. pose proof (to_double_mono q s Hle). lia.
Qed.

Section Ledger.
Variable its : gmap Z item.
Variables id minus at_least : Z.

Lemma update_stock_hit it :
  its !! id = Some it → at_least ≤ item_stock it →
  update_stock minus id at_least its
  = (<[id := set_stock (subtract (item_stock it) minus) it]> its, 1).
Proof.
  intros Hit Hle. unfold update_stock. rewrite Hit.
  destruct (Z.leb_spec at_least (item_stock it)); [done | lia].
Qed.

Lemma update_stock_miss :
  (∀ it, its !! id = Some it → item_stock it < at_least) →
  update_stock minus id at_least its = (its, 0).
Proof.
  intros Hmiss. unfold update_stock.
  destruct (its !! id) as [it|] eqn:Hit; [|done].
  specialize (Hmiss it eq_refl).
  destruct (Z.leb_spec at_least (item_stock it)); [lia | done].
Qed.

Lemma update_stock_cases :
  (∃ it, its !! id = Some it ∧ at_least ≤ item_stock it ∧
         update_stock minus id at_least its
         = (<[id := set_stock (subtract (item_stock it) minus) it]> its, 1))
  ∨ ((∀ it, its !! id = Some it → item_stock it < at_least) ∧
     update_stock minus id at_least its = (its, 0)).
Proof.
  destruct (its !! id) as [it|] eqn:Hit.
  - destruct (Z.le_gt_cases at_least (item_stock it)) as [Hle|Hgt].
    + left. exists it. eauto using update_stock_hit.
    + right. split; [|apply update_stock_miss]; intros it' ?; simplify_eq; lia.
  - right. split; [|apply update_stock_miss]; intros it' ?; simplify_eq.
Qed.
End Ledger.


Lemma update_stock_nonneg q id its :
  stocks_nonneg its → stocks_nonneg (update_stock q id q its).1.
Proof.
  intros Hnn.
  destruct (update_stock_cases its id q q) as [(it & Hit & Hle & ->)|[_ ->]];
    [|done].
  intros j it'. simpl. rewrite lookup_insert.
  case_decide; [|apply Hnn]. intros [= <-]. simpl. by apply subtract_nonneg.
Qed.

Lemma sync_bind_eq {A B} (m : sync A) (f : A → sync B) e :
  (m ≫= f) e
  = let '(a, e1, acts1) := m e in
    let '(b, e2, acts2) := f a e1 in
    (b, e2, acts1 ++ acts2).
Proof. reflexivity. Qed.

Lemma runs_app a b : runs (a ++ b) = runs a ++ runs b.
Proof. apply omap_app. Qed.

Lemma sends_app a b : sends (a ++ b) = sends a ++ sends b.
Proof. apply omap_app. Qed.

Lemma turns_S n F st : turns (S n) F st = turns n F (step F st).
Proof. reflexivity. Qed.

Lemma turns_add n m F st : turns (n + m) F st = turns m F (turns n F st).
Proof. revert st. induction n as [|n IH]; intros st; [done|]. apply IH. Qed.

Lemma step_idle F st : queue st = [] → step F st = st.
Proof. unfold step. by intros ->. Qed.

Lemma turns_idle n F st : queue st = [] → turns n F st = st.
Proof.
  intros Hq. induction n as [|n IH]; [done|].
  by rewrite turns_S, step_idle.
Qed.

Lemma stocks_nonneg_insert its id it :
  stocks_nonneg its → 0 ≤ item_stock it → stocks_nonneg (<[id := it]> its).
Proof.
  intros Hnn Hit j it'. rewrite lookup_insert.
  case_decide; [|apply Hnn]. by intros [= <-].
Qed.

Lemma exec_tables_nonneg s t :
  safe_stmt s → stocks_nonneg (items t) →
  stocks_nonneg (items (exec_tables s t).1).
Proof.
  intros Hs Hnn. destruct s; simpl in *; try done.
  - by apply stocks_nonneg_insert.
  - destruct (items t !! id); [|done]. by apply stocks_nonneg_insert.
  - destruct (update_stock_cases (items t) id minus at_least)
      as [(it & Hit & Hle & ->)|[_ ->]]; [|done].
    simpl. apply stocks_nonneg_insert; [done|]. simpl.
    apply subtract_nonneg. lia.
Qed.

Lemma exec_nonneg F s d :
  safe_stmt s → db_nonneg d → db_nonneg (exec_with F s d).1.
Proof.
  intros Hs [Hlive Hsaved]. unfold exec_with.
  destruct (F s); [done|].
  assert (db_nonneg (let '(t, r) := exec_tables s (live d) in
                     (Database t (saved d), r)).1) as Hdata.
  { pose proof (exec_tables_nonneg s (live d) Hs Hlive) as Ht.
    destruct (exec_tables s (live d)) as [t r]. by split. }
  destruct s; try exact Hdata; simpl; destruct (saved d) eqn:Hsv;
    try done; split; simpl; try done; try naive_solver.
Qed.

Lemma for_of_lines_eq purchaseId (l : list value) e :
  for_of l (λ item,
      db_run (INSERT_INTO_purchase_items purchaseId
                (int_of (prop item "item_id")) (int_of (prop item "quantity")))
             no_callback ;;
      db_run (UPDATE_items_SET_stock (int_of (prop item "quantity"))
                (int_of (prop item "item_id")) (int_of (prop item "quantity")))
             stock_updated) e
  = ((), e, l ≫= line_actions purchaseId).
Proof.
  revert e. induction l as [|item l IH]; intros e; [done|].
  simpl for_of. rewrite sync_bind_eq, sync_bind_eq. simpl.
  rewrite IH. reflexivity.
Qed.

(** The flag is still [false] when l.164 reads it: the callbacks that set
    it have only been registered. *)
Lemma on_purchase_inserted_ok items res e :
  err res = None →
  on_purchase_inserted items res e
  = ((), false,
     (elements items ≫= line_actions (lastID res))
     ++ [Run COMMIT (commit_done (lastID res))]).
Proof.
  intros Herr. unfold on_purchase_inserted. rewrite Herr.
  rewrite !sync_bind_eq. simpl. rewrite sync_bind_eq, for_of_lines_eq.
  reflexivity.
Qed.

Lemma on_purchase_inserted_err items res e er :
  err res = Some er →
  on_purchase_inserted items res e
  = ((), e, [Run ROLLBACK no_callback; Send (error_handler er)]).
Proof. intros Herr. unfold on_purchase_inserted. by rewrite Herr. Qed.

Lemma runs_lines purchaseId (l : list value) :
  runs (l ≫= line_actions purchaseId)
  = l ≫= λ item,
      [(INSERT_INTO_purchase_items purchaseId (line_of item).1
                                   (line_of item).2, no_callback);
       (UPDATE_items_SET_stock (line_of item).2 (line_of item).1
                               (line_of item).2, stock_updated)].
Proof.
  induction l as [|item l IH]; [done|].
  change ((item :: l) ≫= line_actions purchaseId)
    with (line_actions purchaseId item ++ (l ≫= line_actions purchaseId)).
  rewrite runs_app, IH. reflexivity.
Qed.

Lemma sends_lines purchaseId (l : list value) :
  sends (l ≫= line_actions purchaseId) = [].
Proof.
  induction l as [|item l IH]; [done|].
  change ((item :: l) ≫= line_actions purchaseId)
    with (line_actions purchaseId item ++ (l ≫= line_actions purchaseId)).
  rewrite sends_app, IH. reflexivity.
Qed.

Lemma crashes_app a b : crashes (a ++ b) = crashes a || crashes b.
Proof. apply existsb_app. Qed.

Lemma crashes_lines purchaseId (l : list value) :
  crashes (l ≫= line_actions purchaseId) = false.
Proof.
  induction l as [|item l IH]; [done|].
  change ((item :: l) ≫= line_actions purchaseId)
    with (line_actions purchaseId item ++ (l ≫= line_actions purchaseId)).
  by rewrite crashes_app, IH.
Qed.

Lemma call_safe cb res e : safe_queue (runs (call cb res e).2).
Proof.
  destruct cb; simpl.
  - destruct (err res); constructor.
  - destruct (err res); constructor.
  - destruct (err res); [constructor|]. destruct (changes res =? 0); constructor.
  - destruct (err res) as [er|] eqn:Herr.
    + erewrite on_purchase_inserted_err by done. repeat constructor.
    + rewrite on_purchase_inserted_ok by done. simpl.
      rewrite runs_app, runs_lines. apply Forall_app. split.
      * apply Forall_bind, Forall_forall. intros item _.
        repeat constructor. simpl. lia.
      * repeat constructor.
  - destruct (_ || _); constructor.
  - destruct (err res); repeat constructor.
Qed.

Lemma recover_nonneg d : db_nonneg d → db_nonneg (recover d).
Proof.
  intros Hd. unfold recover.
  destruct (saved d) as [t|] eqn:Hsv; [|done].
  destruct Hd as [_ Hsaved]. split; simpl; [by apply Hsaved | done].
Qed.

Lemma step_safe F st :
  db_nonneg (db st) → safe_queue (queue st) →
  db_nonneg (db (step F st)) ∧ safe_queue (queue (step F st)).
Proof.
  intros Hdb Hq. unfold step.
  destruct (queue st) as [|[s cb] rest] eqn:Hqueue; [by rewrite Hqueue|].
  apply Forall_cons in Hq as [Hs Hrest].
  pose proof (exec_nonneg F s (db st) Hs Hdb) as Hd.
  destruct (exec_with F s (db st)) as [d res].
  pose proof (call_safe cb res (stockError st)) as Hcall.
  destruct (call cb res (stockError st)) as [[[] e] acts]. simpl in *.
  destruct (crashes acts); simpl.
  - split; [by apply recover_nonneg | constructor].
  - split; [done|]. by apply Forall_app.
Qed.

Lemma turns_safe n F st :
  db_nonneg (db st) → safe_queue (queue st) →
  db_nonneg (db (turns n F st)).
Proof.
  revert st. induction n as [|n IH]; intros st Hdb Hq; [done|].
  rewrite turns_S. destruct (step_safe F st Hdb Hq). by apply IH.
Qed.

(** A purchase request, whatever it contains and whatever the storage
    layer fails, leaves no stock below zero. *)
Lemma post_purchases_nonneg F body d :
  db_nonneg d → db_nonneg (db (serve F (post_purchases body) d)).
Proof.
  intros Hd. unfold serve.
  assert (safe_queue (runs (post_purchases body false).2)) as Hsafe.
  { unfold post_purchases. destruct (validate_purchase body);
      repeat constructor. }
  destruct (post_purchases body false) as [[[] e] acts].
  by apply turns_safe.
Qed.

Section Turns.
Variable F : faults.
Hypothesis HF : only_commit_fails F.

Lemma step_line_insert d e pid i q rest snt lg :
  step F (State d e ((INSERT_INTO_purchase_items pid i q, no_callback) :: rest)
                snt lg)
  = State (Database (exec_tables (INSERT_INTO_purchase_items pid i q)
                                 (live d)).1 (saved d))
          e rest snt (lg ++ [INSERT_INTO_purchase_items pid i q]).
Proof.
  unfold step, exec_with. simpl. rewrite HF by done. simpl.
  by rewrite !app_nil_r.
Qed.

Lemma step_line_update d e m i q rest snt lg :
  ∃ e',
    step F (State d e ((UPDATE_items_SET_stock m i q, stock_updated) :: rest)
                  snt lg)
    = State (Database (exec_tables (UPDATE_items_SET_stock m i q)
                                   (live d)).1 (saved d))
            e' rest snt (lg ++ [UPDATE_items_SET_stock m i q]).
Proof.
  unfold step, exec_with. simpl. rewrite HF by done. simpl.
  destruct (update_stock m i q (items (live d))) as [its n]. simpl.
  destruct (n =? 0); simpl; eexists; by rewrite !app_nil_r.
Qed.

Lemma turns_lines pid (l : list value) : ∀ d e rest snt lg k,
  ∃ e',
    turns (2 * length l + k) F
          (State d e (runs (l ≫= line_actions pid) ++ rest) snt lg)
    = turns k F
          (State (Database (book pid (line_of <$> l) (live d)) (saved d))
                 e' rest snt (lg ++ (l ≫= line_stmts pid))).
Proof.
  induction l as [|item l IH]; intros d e rest snt lg k.
  - exists e. simpl. rewrite app_nil_r. by destruct d.
  - rewrite runs_lines.
    replace (2 * length (item :: l) + k)%nat
      with (S (S (2 * length l + k))) by (simpl; lia).
    rewrite !turns_S. simpl. rewrite step_line_insert.
    edestruct step_line_update as [e1 ->].
    rewrite <- runs_lines.
    edestruct (IH (Database
      (exec_tables
         (UPDATE_items_SET_stock (line_of item).2 (line_of item).1
                                 (line_of item).2)
         (exec_tables
            (INSERT_INTO_purchase_items pid (line_of item).1 (line_of item).2)
            (live d)).1).1 (saved d))) as [e2 ->].
    exists e2. simpl. by rewrite <- !app_assoc.
Qed.
End Turns.


(** Every validated request on an idle connection runs the same course:
    begin, header, all lines, commit; the commit decides the outcome. *)
Lemma serve_purchase F body d :
  only_commit_fails F → validate_purchase body = Valid → idle d →
  ∃ e',
    serve F (post_purchases body) d
    = match F COMMIT with
      | None =>
          State (Database (booked body (live d)) None) e' []
                [Response 201 (PurchaseCreated (next_purchase_id (live d)))]
                (purchase_stmts body (next_purchase_id (live d)))
      | Some er =>
          State (Database (live d) None) e' []
                [error_handler er]
                (purchase_stmts body (next_purchase_id (live d)) ++ [ROLLBACK])
      end.
Proof.
  intros HF Hvalid Hidle. unfold serve, post_purchases. rewrite Hvalid.
  rewrite sync_bind_eq. simpl.
  set (items := prop body "items").
  set (pid := next_purchase_id (live d)).
  unfold work. simpl.
  (* BEGIN TRANSACTION *)
  unfold step at 2. simpl. unfold exec_with at 1. rewrite HF by done.
  simpl. rewrite Hidle. simpl.
  (* INSERT INTO purchases, then its callback *)
  unfold step at 1. simpl. unfold exec_with at 1. rewrite HF by done.
  simpl. rewrite on_purchase_inserted_ok by done. simpl.
  rewrite crashes_app, crashes_lines. simpl.
  rewrite runs_app, sends_app, sends_lines. simpl.
  (* the lines *)
  match goal with
  | |- context [turns ?n F _] =>
      replace n with (2 * length (elements items) + 2)%nat by (simpl; lia)
  end.
  edestruct (turns_lines F HF) as [e1 ->]. simpl.
  (* COMMIT *)
  unfold step at 2. simpl. unfold exec_with at 1.
  destruct (F COMMIT) as [er|] eqn:Hcommit; simpl.
  - unfold step, exec_with. simpl. rewrite HF by done. simpl.
    exists e1. unfold purchase_stmts. fold items. fold pid.
    reflexivity.
  - unfold step. simpl.
    exists e1. unfold purchase_stmts, booked, lines_of. fold items. fold pid.
    reflexivity.
Qed.

Lemma next_rowid_fresh seq ids x : x ∈ ids → x < next_rowid seq ids.
Proof.
  unfold next_rowid. induction ids as [|y ids IH]; intros Hx.
  - by apply elem_of_nil in Hx.
  - apply elem_of_cons in Hx as [->|Hx]; simpl; [lia|].
    specialize (IH Hx). lia.
Qed.

Lemma next_rowid_above seq ids : seq < next_rowid seq ids.
Proof. unfold next_rowid. lia. Qed.



Lemma book_cons pid l lines t :
  book pid (l :: lines) t = book pid lines (book_line pid t l).
Proof. reflexivity. Qed.

Lemma book_line_items pid t l :
  items (book_line pid t l) = (update_stock l.2 l.1 l.2 (items t)).1.
Proof.
  unfold book_line. simpl.
  by destruct (update_stock l.2 l.1 l.2 (items t)).
Qed.

Lemma book_line_purchases pid t l :
  purchases (book_line pid t l) = purchases t
  ∧ purchases_seq (book_line pid t l) = purchases_seq t.
Proof.
  unfold book_line. simpl.
  by destruct (update_stock l.2 l.1 l.2 (items t)).
Qed.


Lemma book_purchases pid lines : ∀ t,
  purchases (book pid lines t) = purchases t
  ∧ purchases_seq (book pid lines t) = purchases_seq t.
Proof.
  induction lines as [|l lines IH]; intros t; [done|].
  rewrite book_cons.
  destruct (IH (book_line pid t l)) as [-> ->]. apply book_line_purchases.
Qed.





(** *** The checks of the validators, read as propositions *)

Lemma Qred_num_sign q :
  (0 < Qnum (Qred q) ↔ 0 < Qnum q) ∧ (Qnum (Qred q) = 0 ↔ Qnum q = 0).
Proof.
  pose proof (Qred_correct q) as Heq. unfold Qeq in Heq.
  pose proof (Pos2Z.is_pos (Qden q)).
  pose proof (Pos2Z.is_pos (Qden (Qred q))).
  split; split; intros; nia.
Qed.

Lemma check_text v :
  negb (truthy v) || negb (String.eqb (typeof v) "string") = false
  ↔ nonempty_text v.
Proof.
  unfold nonempty_text. destruct v as [| |b|[q|neg]|s|l|fs]; simpl;
    rewrite ?orb_true_r, ?orb_false_r;
    try (split; [discriminate | by intros (? & ? & ?)]).
  rewrite negb_involutive. split.
    + intros Hs. exists s. split; [done|]. intros ->. discriminate.
    + intros (s' & [= <-] & Hne). by apply String.eqb_neq.
Qed.

Lemma check_array v :
  negb (Array_isArray v) || (length (elements v) =? 0)%nat = false
  ↔ nonempty_array v.
Proof.
  unfold nonempty_array. destruct v as [| |b|n|s|l|fs]; simpl;
    try (split; [discriminate | by intros (? & ? & ?)]).
  destruct l; simpl; split; try discriminate; try done.
  - by intros (? & [= <-] & ?).
  - intros _. eexists. split; done.
Qed.

Lemma check_item_id v :
  negb (truthy v) || negb (Number_isInteger v) = false ↔ nonzero_integer v.
Proof.
  unfold nonzero_integer. destruct v as [| |b|[q|neg]|s|l|fs]; simpl;
    rewrite ?orb_true_r; try (split; [discriminate | by intros [? ?]]).
  destruct (Qred_num_sign q) as [_ Hzero].
  rewrite orb_false_iff, !negb_false_iff, negb_true_iff, Z.eqb_neq.
  rewrite Hzero. tauto.
Qed.

Lemma check_quantity v :
  negb (Number_isInteger v) || le_zero v = false ↔ positive_integer v.
Proof.
  unfold positive_integer. destruct v as [| |b|[q|neg]|s|l|fs]; simpl;
    try (split; [discriminate | by intros [? ?]]).
  destruct (Qred_num_sign q) as [Hpos _].
  rewrite orb_false_iff, negb_false_iff, Z.leb_gt, Hpos. tauto.
Qed.

Lemma check_stock v :
  negb (Number_isInteger v) || lt_zero v = false ↔ nonneg_integer v.
Proof.
  unfold nonneg_integer. destruct v as [| |b|[q|neg]|s|l|fs]; simpl;
    try (split; [discriminate | by intros [? ?]]).
  destruct (Qred_num_sign q) as [Hpos Hzero].
  rewrite orb_false_iff, negb_false_iff, Z.ltb_ge. split.
  - intros [Hint Hge]. split; [done|].
    destruct (Z.eq_dec (Qnum q) 0) as [H0|H0]; [apply Hzero in H0; lia|].
    apply Z.lt_le_incl, Hpos. lia.
  - intros [Hint Hge]. split; [done|].
    destruct (Z.eq_dec (Qnum (Qred q)) 0) as [H0|H0]; [apply Hzero in H0; lia|].
    apply Z.lt_le_incl, Hpos. lia.
Qed.

Lemma check_price v :
  negb (String.eqb (typeof v) "number") || lt_zero v = false ↔ nonneg_number v.
Proof.
  unfold nonneg_number. destruct v as [| |b|[q|neg]|s|l|fs]; simpl;
    try (split; [discriminate | by intros (? & ? & ?)]).
  - rewrite Z.ltb_ge. split.
    + intros Hge. eexists. split; [done|]. unfold number_nonneg, Qle. simpl. lia.
    + intros (n & [= <-] & Hn). unfold number_nonneg, Qle in Hn. simpl in Hn. lia.
  - split.
    + intros ->. eexists. split; done.
    + by intros (n & [= <-] & Hn).
Qed.

(** The loop over the lines, when no line is [null]. *)
Lemma validate_lines_cases items :
  Forall (λ item, nullish item = false) items →
  (validate_lines items = Valid ∧ Forall (λ item, ¬ bad_line item) items)
  ∨ ((∃ msg, validate_lines items = Rejected msg) ∧ Exists bad_line items).
Proof.
  induction 1 as [|item items Hitem _ IH]; [left; by split|].
  simpl. rewrite Hitem.
  destruct (negb (truthy (prop item "item_id"))
            || negb (Number_isInteger (prop item "item_id"))) eqn:Hid.
  { right. split; [eauto|]. left. left. rewrite <- check_item_id. congruence. }
  destruct (negb (Number_isInteger (prop item "quantity"))
            || le_zero (prop item "quantity")) eqn:Hq.
  { right. split; [eauto|]. left. right. rewrite <- check_quantity. congruence. }
  apply check_item_id in Hid. apply check_quantity in Hq.
  destruct IH as [[-> Hall]|[Hrej Hex]].
  - left. split; [done|]. constructor; [|done]. unfold bad_line. tauto.
  - right. split; [done|]. by right.
Qed.

Lemma validate_purchase_not_null body :
  nullish body = false →
  Forall (λ item, nullish item = false) (elements (prop body "items")) →
  (validate_purchase body = Valid ∧ ¬ invalid_as_checked body)
  ∨ (rejects body ∧ invalid_as_checked body).
Proof.
  intros Hbody Hlines. unfold rejects, validate_purchase. rewrite Hbody.
  unfold invalid_as_checked.
  destruct (negb (truthy (prop body "customer_name")) || _) eqn:Hname.
  { right. split; [eauto|]. left. rewrite <- check_text. congruence. }
  destruct (negb (truthy (prop body "shipping_address")) || _) eqn:Haddr.
  { right. split; [eauto|]. right. left. rewrite <- check_text. congruence. }
  destruct (negb (Array_isArray (prop body "items")) || _) eqn:Hitems.
  { right. split; [eauto|]. right. right. left.
    rewrite <- check_array. congruence. }
  apply check_text in Hname, Haddr. apply check_array in Hitems.
  destruct (validate_lines_cases _ Hlines) as [[-> Hall]|[Hrej Hex]].
  - left. split; [done|]. intros [?|[?|[?|(item & Hin & Hbad)]]]; try done.
    rewrite Forall_forall in Hall. by apply (Hall item).
  - right. split; [done|]. right. right. right.
    apply Exists_exists in Hex as (item & Hin & Hbad). eauto.
Qed.

(** A request that does not pass the checks issues no statement. *)
Lemma serve_not_valid F body d :
  validate_purchase body ≠ Valid →
  ∃ r, serve F (post_purchases body) d = State d false [] [r] []
       ∧ ∀ msg, validate_purchase body = Rejected msg →
                r = Response 400 (Error msg).
Proof.
  intros Hnot. unfold serve, post_purchases.
  destruct (validate_purchase body) as [|msg|e]; [done| |]; simpl.
  - eexists. split; [done|]. by intros ? [= <-].
  - eexists. split; [done|]. by intros ? [=].
Qed.

Lemma validate_lines_valid items :
  validate_lines items = Valid → Forall good_line items.
Proof.
  induction items as [|item items IH]; simpl; [constructor|].
  destruct (nullish item) eqn:Hnull; [done|].
  destruct (negb (truthy (prop item "item_id")) || _) eqn:Hid; [done|].
  destruct (negb (Number_isInteger (prop item "quantity")) || _) eqn:Hq;
    [done|].
  intros Hrest. constructor; [|by apply IH].
  split; [done|]. split; [by apply check_item_id | by apply check_quantity].
Qed.

Lemma validate_purchase_valid body :
  validate_purchase body = Valid →
  nonempty_text (prop body "customer_name")
  ∧ nonempty_text (prop body "shipping_address")
  ∧ nonempty_array (prop body "items")
  ∧ Forall good_line (elements (prop body "items")).
Proof.
  unfold validate_purchase. destruct (nullish body); [done|].
  destruct (negb (truthy (prop body "customer_name")) || _) eqn:Hname;
    [done|].
  destruct (negb (truthy (prop body "shipping_address")) || _) eqn:Haddr;
    [done|].
  destruct (negb (Array_isArray (prop body "items")) || _) eqn:Hitems;
    [done|].
  intros Hlines. split_and!.
  - by apply check_text.
  - by apply check_text.
  - by apply check_array.
  - by apply validate_lines_valid.
Qed.


(** *** The item endpoints *)

Lemma validate_item_invalid body :
  nullish body = false → invalid_item body →
  ∃ msg, validate_item body = Rejected msg.
Proof.
  intros Hbody Hinv. unfold validate_item. rewrite Hbody.
  destruct (negb (truthy (prop body "name")) || _) eqn:Hname; [eauto|].
  destruct (negb (Number_isInteger (prop body "stock")) || _) eqn:Hstock;
    [eauto|].
  destruct (negb (String.eqb (typeof (prop body "price")) "number") || _)
    eqn:Hprice; [eauto|].
  apply check_text in Hname as (s & Hs & _).
  apply check_stock in Hstock. apply check_price in Hprice.
  destruct Hinv as [Hn|[Hs'|Hp]]; [destruct Hn; eauto | done | done].
Qed.

Lemma validate_item_valid body :
  validate_item body = Valid →
  0 ≤ int_of (prop body "stock") ∧ number_nonneg (number_of (prop body "price")).
Proof.
  unfold validate_item. destruct (nullish body); [done|].
  destruct (negb (truthy (prop body "name")) || _); [done|].
  destruct (negb (Number_isInteger (prop body "stock")) || _) eqn:Hstock;
    [done|].
  destruct (negb (String.eqb (typeof (prop body "price")) "number") || _)
    eqn:Hprice; [done|].
  intros _. apply check_stock in Hstock as [_ Hstock].
  apply check_price in Hprice as (n & -> & Hn). done.
Qed.

(** An item request runs at most one statement, and only when the checks
    pass. *)
Lemma serve_item_cases F (h : sync ()) (s : stmt) (cb : callback) body d :
  (cb = item_inserted ∨ cb = item_updated) →
  h = match validate_item body with
      | Threw e => next e
      | Rejected msg => send (Response 400 (Error msg))
      | Valid => db_run s cb
      end →
  (validate_item body = Valid
   ∧ db (serve F h d) = (exec_with F s d).1 ∧ log (serve F h d) = [s])
  ∨ (validate_item body ≠ Valid
     ∧ db (serve F h d) = d ∧ log (serve F h d) = []
     ∧ ∀ msg, validate_item body = Rejected msg →
              sent (serve F h d) = [Response 400 (Error msg)]).
Proof.
  intros Hcb ->. unfold serve.
  destruct (validate_item body) as [|msg|e]; simpl.
  - left. split; [done|]. unfold work. simpl.
    replace (weight cb) with 0%nat by (by destruct Hcb as [-> | ->]).
    simpl. unfold step. simpl.
    destruct (exec_with F s d) as [d' res]. simpl.
    destruct Hcb as [-> | ->]; simpl.
    + by destruct (err res).
    + destruct (err res); [done|]. by destruct (changes res =? 0).
  - right. repeat split; try done. by intros ? [= <-].
  - right. repeat split; done.
Qed.

Lemma exec_item_rows F s d j it :
  writes_nonneg s →
  (∃ n st p, s = INSERT_INTO_items n st p) ∨ (∃ n st p id, s = UPDATE_items n st p id) →
  items (live (exec_with F s d).1) !! j = Some it →
  items (live d) !! j = Some it
  ∨ (0 ≤ item_stock it ∧ number_nonneg (item_price it)).
Proof.
  intros Hw Hs. unfold exec_with. destruct (F s); [by left|].
  destruct Hs as [(n & st & p & ->)|(n & st & p & id & ->)]; simpl in *.
  - rewrite lookup_insert. case_decide; [|by left].
    intros [= <-]. by right.
  - destruct (items (live d) !! id); simpl; [|by left].
    rewrite lookup_insert. case_decide; [|by left].
    intros [= <-]. by right.
Qed.

(** *** Consequences of the course of a purchase *)

Lemma commit_fails_only e : only_commit_fails (commit_fails e).
Proof. intros s Hs. by destruct s. Qed.

Lemma no_faults_only : only_commit_fails no_faults.
Proof. by intros s Hs. Qed.

Lemma booked_purchases body t :
  purchases (booked body t) = purchases t ++ [header (next_purchase_id t) body]
  ∧ purchases_seq (booked body t) = next_purchase_id t.
Proof.
  unfold booked.
  destruct (book_purchases (next_purchase_id t) (lines_of body)
    (exec_tables (INSERT_INTO_purchases (text_of (prop body "customer_name"))
                    (text_of (prop body "shipping_address"))) t).1)
    as [-> ->].
  done.
Qed.

Lemma idle_eq d : idle d → Database (live d) None = d.
Proof. destruct d as [t s]. unfold idle. simpl. by intros ->. Qed.

(** *** Every request is served to the end *)

Lemma work_app q1 q2 : work (q1 ++ q2) = (work q1 + work q2)%nat.
Proof. apply sum_list_with_app. Qed.

Lemma work_lines pid (l : list value) :
  work (runs (l ≫= line_actions pid)) = (2 * length l)%nat.
Proof.
  rewrite runs_lines. induction l as [|item l IH]; [done|].
  change (work ((item :: l) ≫= _)) with (S (S (work (l ≫= λ item,
    [(INSERT_INTO_purchase_items pid (line_of item).1 (line_of item).2,
      no_callback);
     (UPDATE_items_SET_stock (line_of item).2 (line_of item).1
        (line_of item).2, stock_updated)])))).
  rewrite IH. simpl. lia.
Qed.

Lemma call_work cb res e : (work (runs (call cb res e).2) ≤ weight cb)%nat.
Proof.
  destruct cb; simpl.
  - by destruct (err res).
  - by destruct (err res).
  - destruct (err res); [done|]. by destruct (changes res =? 0).
  - destruct (err res) as [er|] eqn:Herr.
    + erewrite on_purchase_inserted_err by done. unfold work. simpl. lia.
    + rewrite on_purchase_inserted_ok by done. simpl.
      rewrite runs_app, work_app, work_lines. unfold work. simpl. lia.
  - by destruct (_ || _).
  - destruct (err res); unfold work; simpl; lia.
Qed.

Lemma step_work F st :
  queue st ≠ [] → (work (queue (step F st)) < work (queue st))%nat.
Proof.
  unfold step. destruct (queue st) as [|[s cb] rest]; [done|]. intros _.
  destruct (exec_with F s (db st)) as [d res].
  pose proof (call_work cb res (stockError st)) as Hcall.
  destruct (call cb res (stockError st)) as [[[] e] acts]. simpl in *.
  change (work ((s, cb) :: rest)) with (S (weight cb + work rest)).
  destruct (crashes acts); simpl; [unfold work; simpl; lia|].
  rewrite work_app. lia.
Qed.

Lemma turns_drain n F : ∀ st,
  (work (queue st) ≤ n)%nat → queue (turns n F st) = [].
Proof.
  induction n as [|n IH]; intros st Hwork.
  - simpl. destruct (queue st) as [|[s cb] rest]; [done|].
    unfold work in Hwork. simpl in Hwork. lia.
  - rewrite turns_S. destruct (queue st) as [|p rest] eqn:Hq.
    + rewrite step_idle by done. apply IH. rewrite Hq. unfold work. simpl. lia.
    + apply IH. pose proof (step_work F st) as Hlt.
      rewrite Hq in Hlt. specialize (Hlt ltac:(done)). lia.
Qed.

(** Whatever the handler and whatever fails, the turns [serve] allows are
    enough to empty the queue. *)
Lemma serve_drains F h d : queue (serve F h d) = [].
Proof.
  unfold serve. destruct (h false) as [[[] e] acts].
  by apply turns_drain.
Qed.

(** *** The statements of a purchase in any order *)

Lemma filter_inserts pid (l : list value) rest :
  List.filter of_insertPurchaseItem (runs (l ≫= line_actions pid) ++ rest)
  = line_inserts pid l ++ List.filter of_insertPurchaseItem rest.
Proof.
  induction l as [|item l IH]; [done|].
  change ((item :: l) ≫= line_actions pid)
    with (line_actions pid item ++ (l ≫= line_actions pid)).
  rewrite runs_app, <- app_assoc. simpl. by rewrite IH.
Qed.

Lemma filter_updates pid (l : list value) rest :
  List.filter of_updateStock (runs (l ≫= line_actions pid) ++ rest)
  = line_updates l ++ List.filter of_updateStock rest.
Proof.
  induction l as [|item l IH]; [done|].
  change ((item :: l) ≫= line_actions pid)
    with (line_actions pid item ++ (l ≫= line_actions pid)).
  rewrite runs_app, <- app_assoc. simpl. by rewrite IH.
Qed.

Lemma filter_db_run pid (l : list value) rest :
  List.filter of_db_run (runs (l ≫= line_actions pid) ++ rest)
  = List.filter of_db_run rest.
Proof.
  induction l as [|item l IH]; [done|].
  change ((item :: l) ≫= line_actions pid)
    with (line_actions pid item ++ (l ≫= line_actions pid)).
  rewrite runs_app, <- app_assoc. simpl. by rewrite IH.
Qed.

Lemma chains_of_purchase pid (l : list value) :
  l ≠ [] →
  chains_of (runs (l ≫= line_actions pid) ++ [(COMMIT, commit_done pid)])
  = [line_inserts pid l; line_updates l; [(COMMIT, commit_done pid)]].
Proof.
  intros Hl. unfold chains_of.
  rewrite filter_inserts, filter_updates, filter_db_run. simpl.
  rewrite !app_nil_r. unfold line_inserts, line_updates.
  rewrite !length_fmap. by destruct l.
Qed.

Lemma book_snoc pid lines l t :
  book pid (lines ++ [l]) t = book_line pid (book pid lines t) l.
Proof. unfold book. by rewrite foldl_app. Qed.

Lemma book_line_row pid t l :
  purchase_items (book_line pid t l)
  = purchase_items t
    ++ [PurchaseItem (next_rowid (purchase_items_seq t)
                        (pi_id <$> purchase_items t)) pid l.1 l.2]
  ∧ purchase_items_seq (book_line pid t l)
    = next_rowid (purchase_items_seq t) (pi_id <$> purchase_items t).
Proof.
  unfold book_line. simpl.
  by destruct (update_stock l.2 l.1 l.2 (items t)).
Qed.

Lemma book_line_items_seq pid t l :
  items_seq (book_line pid t l) = items_seq t.
Proof.
  unfold book_line. simpl.
  by destruct (update_stock l.2 l.1 l.2 (items t)).
Qed.

Lemma book_items_seq pid lines : ∀ t,
  items_seq (book pid lines t) = items_seq t.
Proof.
  induction lines as [|l lines IH]; intros t; [done|].
  by rewrite book_cons, IH, book_line_items_seq.
Qed.

Lemma partly_all pid lines t :
  partly pid lines (length lines) (length lines) t = book pid lines t.
Proof.
  unfold partly. rewrite firstn_all.
  destruct (book_purchases pid lines t) as [Hp Hs].
  rewrite <- Hp, <- Hs, <- (book_items_seq pid lines t).
  by destruct (book pid lines t).
Qed.

Lemma partly_insert pid lines a b t l :
  lines !! a = Some l →
  (exec_tables (INSERT_INTO_purchase_items pid l.1 l.2)
               (partly pid lines a b t)).1
  = partly pid lines (S a) b t.
Proof.
  intros Hl. unfold partly.
  rewrite (take_S_r lines a l Hl), book_snoc.
  destruct (book_line_row pid (book pid (take a lines) t) l) as [-> ->].
  reflexivity.
Qed.

Lemma partly_update pid lines a b t l :
  lines !! b = Some l →
  (exec_tables (UPDATE_items_SET_stock l.2 l.1 l.2)
               (partly pid lines a b t)).1
  = partly pid lines a (S b) t.
Proof.
  intros Hl. unfold partly.
  rewrite (take_S_r lines b l Hl), book_snoc, book_line_items. simpl.
  by destruct (update_stock l.2 l.1 l.2 _).
Qed.


Lemma run_next_eq F st k s cb rest d res e acts :
  waiting st !! k = Some ((s, cb) :: rest) →
  exec_with F s (pool_db st) = (d, res) →
  call cb res (pool_stockError st) = ((), e, acts) →
  crashes acts = false →
  run_next F st k
  = Pool d e (<[k := rest]> (waiting st) ++ chains_of (runs acts))
         (pool_sent st ++ sends acts) (pool_log st ++ [s]).
Proof.
  intros Hk Hex Hcall Hcrash. unfold run_next.
  by rewrite Hk, Hex, Hcall, Hcrash.
Qed.

Lemma run_next_idle F st k :
  (waiting st !! k = None ∨ waiting st !! k = Some []) →
  run_next F st k = st.
Proof. unfold run_next. by intros [-> | ->]. Qed.

Lemma exec_data s d :
  match s with BEGIN_TRANSACTION | COMMIT | ROLLBACK => False | _ => True end →
  exec_with no_faults s d
  = (Database (exec_tables s (live d)).1 (saved d), (exec_tables s (live d)).2).
Proof.
  intros Hs. unfold exec_with, no_faults.
  destruct s; try done; unfold exec; by destruct (exec_tables _ _).
Qed.

Lemma exec_tables_decrement_err m i q t :
  err (exec_tables (UPDATE_items_SET_stock m i q) t).2 = None.
Proof. simpl. by destruct (update_stock m i q (items t)). Qed.

Lemma not_rollback lg s : ROLLBACK ∉ lg → s ≠ ROLLBACK → ROLLBACK ∉ lg ++ [s].
Proof.
  intros Hlg Hs. rewrite not_elem_of_app. split; [done|].
  intros Hin%list_elem_of_singleton. congruence.
Qed.

Lemma run_next_underway body d st k :
  underway body d st → underway body d (run_next no_faults st k).
Proof.
  intros (a & b & c & Hdb & Hw & Hs & Hlog).
  set (l := elements (prop body "items")) in *.
  set (pid := next_purchase_id (live d)) in *.
  set (t1 := (exec_tables (header_stmt body) (live d)).1) in *.
  assert (∀ n, l !! n = None →
               drop n (line_inserts pid l) = []
               ∧ drop n (line_updates l) = []) as Hdone.
  { intros n Hn%lookup_ge_None.
    split; apply drop_ge; unfold line_inserts, line_updates;
      rewrite length_fmap; lia. }
  assert (∀ n, (waiting st !! n = None ∨ waiting st !! n = Some []) →
               underway body d (run_next no_faults st n)) as Hidle.
  { intros n Hn. rewrite run_next_idle by done. by exists a, b, c. }
  destruct k as [|[|[|[|k]]]].
  - apply Hidle. right. by rewrite Hw.
  - (* a run of insertPurchaseItem *)
    destruct (l !! a) as [item|] eqn:Hitem.
    2:{ apply Hidle. right. rewrite Hw. simpl.
        by destruct (Hdone a Hitem) as [-> _]. }
    assert (lines_of body !! a = Some (line_of item)) as Hline.
    { unfold lines_of. fold l. by rewrite list_lookup_fmap, Hitem. }
    erewrite run_next_eq; cycle 1.
    + rewrite Hw. simpl. unfold line_inserts.
      erewrite drop_S by (by rewrite list_lookup_fmap, Hitem). done.
    + by rewrite exec_data.
    + done.
    + done.
    + exists (S a), b, c. cbn [pool_db waiting pool_sent pool_log].
      rewrite Hdb, Hw, Hs. cbn [live saved]. split_and!.
      * f_equal. apply (partly_insert _ _ _ _ _ (line_of item) Hline).
      * reflexivity.
      * apply app_nil_r.
      * by apply not_rollback.
  - (* a run of updateStock *)
    destruct (l !! b) as [item|] eqn:Hitem.
    2:{ apply Hidle. right. rewrite Hw. simpl.
        by destruct (Hdone b Hitem) as [_ ->]. }
    assert (lines_of body !! b = Some (line_of item)) as Hline.
    { unfold lines_of. fold l. by rewrite list_lookup_fmap, Hitem. }
    assert (∃ e, call stock_updated
                   (exec_tables (UPDATE_items_SET_stock (line_of item).2
                      (line_of item).1 (line_of item).2)
                      (live (pool_db st))).2 (pool_stockError st)
                 = ((), e, [])) as [e Hcall].
    { unfold call. rewrite exec_tables_decrement_err. simpl.
      destruct (_ =? 0); eauto. }
    erewrite run_next_eq; cycle 1.
    + rewrite Hw. simpl. unfold line_updates.
      erewrite drop_S by (by rewrite list_lookup_fmap, Hitem). done.
    + by rewrite exec_data.
    + exact Hcall.
    + done.
    + exists a, (S b), c. cbn [pool_db waiting pool_sent pool_log].
      rewrite Hdb, Hw, Hs. cbn [live saved]. split_and!.
      * f_equal. apply (partly_update _ _ _ _ _ (line_of item) Hline).
      * reflexivity.
      * apply app_nil_r.
      * by apply not_rollback.
  - (* COMMIT *)
    destruct c.
    { apply Hidle. right. by rewrite Hw. }
    erewrite run_next_eq; cycle 1.
    + by rewrite Hw.
    + unfold exec_with, no_faults. rewrite Hdb. reflexivity.
    + reflexivity.
    + done.
    + exists a, b, true. simpl. rewrite Hw, Hs. split_and!; try done.
      by apply not_rollback.
  - apply Hidle. left. by rewrite Hw.
Qed.

Lemma run_next_course body d st k :
  validate_purchase body = Valid → idle d →
  course body d st → course body d (run_next no_faults st k).
Proof.
  intros Hvalid Hidle [->|[->|Hst]].
  - destruct k as [|k]; [|left; by destruct k].
    right. left. unfold run_next, exec_with, no_faults. simpl.
    by rewrite Hidle.
  - destruct k as [|k]; [|right; left; by destruct k].
    right. right.
    destruct (validate_purchase_valid body Hvalid)
      as (_ & _ & (l & Hl & Hne) & _).
    erewrite run_next_eq; cycle 1.
    + done.
    + by rewrite exec_data.
    + apply on_purchase_inserted_ok. done.
    + by rewrite crashes_app, crashes_lines.
    + exists 0%nat, 0%nat, false. simpl.
      rewrite runs_app, sends_app, sends_lines. simpl.
      change (runs [Run COMMIT ?cb]) with [(COMMIT, cb)].
      rewrite chains_of_purchase by (by rewrite Hl). split_and!; try done.
      rewrite !not_elem_of_cons. split_and!; try done. by intros ?%elem_of_nil.
  - right. right. by apply run_next_underway.
Qed.

Lemma run_course body d picks :
  validate_purchase body = Valid → idle d →
  course body d (run no_faults picks (start (post_purchases body) d)).
Proof.
  intros Hvalid Hidle. unfold run.
  assert (course body d (start (post_purchases body) d)) as Hstart.
  { left. unfold start, post_purchases. by rewrite Hvalid. }
  revert Hstart. generalize (start (post_purchases body) d).
  induction picks as [|k picks IH]; intros st Hst; [done|].
  simpl. by apply IH, run_next_course.
Qed.

(** Whatever the order in which the driver executes the statements of a
    validated purchase, once all are executed the header and all lines are
    committed. *)
Lemma run_purchase body d picks :
  validate_purchase body = Valid → idle d →
  finished (run no_faults picks (start (post_purchases body) d)) →
  pool_db (run no_faults picks (start (post_purchases body) d))
  = Database (booked body (live d)) None
  ∧ pool_sent (run no_faults picks (start (post_purchases body) d))
    = [Response 201 (PurchaseCreated (next_purchase_id (live d)))]
  ∧ ROLLBACK ∉ pool_log (run no_faults picks (start (post_purchases body) d)).
Proof.
  intros Hvalid Hidle Hfin.
  destruct (run_course body d picks Hvalid Hidle) as [Hst|[Hst|Hst]].
  - rewrite Hst in Hfin. unfold finished in Hfin. simpl in Hfin.
    by apply Forall_cons in Hfin as [? _].
  - rewrite Hst in Hfin. unfold finished in Hfin. simpl in Hfin.
    by apply Forall_cons in Hfin as [? _].
  - destruct Hst as (a & b & c & Hdb & Hw & Hs & Hlog).
    unfold finished in Hfin. rewrite Hw in Hfin.
    apply Forall_cons in Hfin as [_ Hfin].
    apply Forall_cons in Hfin as [Ha Hfin].
    apply Forall_cons in Hfin as [Hb Hfin].
    apply Forall_cons in Hfin as [Hc _].
    destruct c; [|done].
    assert (length (lines_of body) ≤ a)%nat as Hla.
    { apply (f_equal length) in Ha. rewrite length_drop in Ha.
      unfold line_inserts in Ha. rewrite length_fmap in Ha.
      unfold lines_of. rewrite length_fmap. simpl in Ha. lia. }
    assert (length (lines_of body) ≤ b)%nat as Hlb.
    { apply (f_equal length) in Hb. rewrite length_drop in Hb.
      unfold line_updates in Hb. rewrite length_fmap in Hb.
      unfold lines_of. rewrite length_fmap. simpl in Hb. lia. }
    split_and!; try done. rewrite Hdb. f_equal.
    unfold booked. rewrite <- partly_all. unfold partly.
    by rewrite !take_ge.
Qed.

(** The run of [serve], which executes the statements in the order
    issued, ends as every schedule does. *)
Lemma serve_as_scheduled body d picks :
  validate_purchase body = Valid → idle d →
  finished (run no_faults picks (start (post_purchases body) d)) →
  pool_db (run no_faults picks (start (post_purchases body) d))
  = db (serve no_faults (post_purchases body) d)
  ∧ pool_sent (run no_faults picks (start (post_purchases body) d))
    = sent (serve no_faults (post_purchases body) d).
Proof.
  intros Hvalid Hidle Hfin.
  destruct (run_purchase body d picks Hvalid Hidle Hfin) as (-> & -> & _).
  by destruct (serve_purchase no_faults body d) as [e ->];
    [apply no_faults_only|..].
Qed.

(** *** Every schedule keeps the stocks at zero or more *)

Lemma chains_of_safe q : safe_queue q → Forall safe_queue (chains_of q).
Proof.
  intros Hq. unfold chains_of.
  assert (∀ f, safe_queue (List.filter f q)) as Hsub.
  { intros f. unfold safe_queue in *. rewrite Forall_forall in *.
    intros p Hp%list_elem_of_In%filter_In. apply Hq, list_elem_of_In, Hp. }
  apply Forall_forall. intros c Hc%list_elem_of_In%filter_In.
  destruct Hc as [Hc%list_elem_of_In _]. revert c Hc. apply Forall_forall.
  apply Forall_app. split; [by repeat constructor|].
  apply Forall_fmap, Forall_forall. intros p Hp%list_elem_of_In%filter_In.
  destruct Hp as [Hp%list_elem_of_In _]. constructor; [|constructor].
  unfold safe_queue in Hq. rewrite Forall_forall in Hq. by apply Hq.
Qed.

Lemma run_next_safe F st k :
  db_nonneg (pool_db st) → Forall safe_queue (waiting st) →
  db_nonneg (pool_db (run_next F st k))
  ∧ Forall safe_queue (waiting (run_next F st k)).
Proof.
  intros Hdb Hw. unfold run_next.
  destruct (waiting st !! k) as [[|[s cb] rest]|] eqn:Hk; try done.
  pose proof (Forall_lookup_1 _ _ _ _ Hw Hk) as Hc.
  apply Forall_cons in Hc as [Hs Hrest].
  pose proof (exec_nonneg F s (pool_db st) Hs Hdb) as Hd.
  destruct (exec_with F s (pool_db st)) as [d res].
  pose proof (call_safe cb res (pool_stockError st)) as Hcall.
  destruct (call cb res (pool_stockError st)) as [[[] e] acts]. simpl in *.
  destruct (crashes acts); simpl.
  - split; [by apply recover_nonneg | constructor].
  - split; [done|]. apply Forall_app. split.
    + by apply Forall_insert.
    + by apply chains_of_safe.
Qed.

Lemma run_safe F picks : ∀ st,
  db_nonneg (pool_db st) → Forall safe_queue (waiting st) →
  db_nonneg (pool_db (run F picks st)).
Proof.
  induction picks as [|k picks IH]; intros st Hdb Hw; [done|].
  destruct (run_next_safe F st k Hdb Hw). by apply IH.
Qed.

(** A purchase request, whatever it contains, whatever the storage layer
    fails and in whatever order the driver executes its statements, leaves
    no stock below zero at any moment. *)
Lemma run_purchases_nonneg F picks body d :
  db_nonneg d →
  db_nonneg (pool_db (run F picks (start (post_purchases body) d))).
Proof.
  intros Hd. apply run_safe.
  - unfold start. by destruct (post_purchases body false) as [[[] e] acts].
  - unfold start.
    assert (safe_queue (runs (post_purchases body false).2)) as Hsafe.
    { unfold post_purchases. destruct (validate_purchase body);
        repeat constructor. }
    destruct (post_purchases body false) as [[[] e] acts].
    by constructor.
Qed.

(** *** A purchase is answered *)

Lemma step_eq F st s cb rest d res e acts :
  queue st = (s, cb) :: rest →
  exec_with F s (db st) = (d, res) →
  call cb res (stockError st) = ((), e, acts) →
  crashes acts = false →
  step F st
  = State d e (rest ++ runs acts) (sent st ++ sends acts) (log st ++ [s]).
Proof.
  intros Hq Hex Hcall Hcrash. unfold step.
  by rewrite Hq, Hex, Hcall, Hcrash.
Qed.

Lemma turns_step n F st s cb rest d res e acts :
  queue st = (s, cb) :: rest →
  exec_with F s (db st) = (d, res) →
  call cb res (stockError st) = ((), e, acts) →
  crashes acts = false →
  turns (S n) F st
  = turns n F (State d e (rest ++ runs acts) (sent st ++ sends acts)
                     (log st ++ [s])).
Proof. intros. rewrite turns_S. by erewrite step_eq. Qed.

(** The state after a turn, with its lists computed. *)
Ltac stepped :=
  cbn [db stockError queue sent log];
  simpl (runs _); simpl (sends _); rewrite ?app_nil_r; simpl (_ ++ _).

Section Heard.
Variable F : faults.
Hypothesis HF : heard F.

Lemma step_insert_heard d e pid i q rest snt lg :
  step F (State d e ((INSERT_INTO_purchase_items pid i q, no_callback) :: rest)
                snt lg)
  = State (Database (exec_tables (INSERT_INTO_purchase_items pid i q)
                                 (live d)).1 (saved d))
          e rest snt (lg ++ [INSERT_INTO_purchase_items pid i q]).
Proof.
  destruct HF as (_ & _ & Hins).
  erewrite step_eq; cycle 1.
  { done. }
  { unfold exec_with. rewrite Hins. reflexivity. }
  { done. }
  { done. }
  simpl. by rewrite !app_nil_r.
Qed.

Lemma step_update_any d e m i q rest snt lg :
  ∃ d' e',
    saved d' = saved d
    ∧ step F (State d e ((UPDATE_items_SET_stock m i q, stock_updated) :: rest)
                    snt lg)
      = State d' e' rest snt (lg ++ [UPDATE_items_SET_stock m i q]).
Proof.
  unfold step, exec_with. simpl. destruct (F _); simpl.
  - exists d, true. by rewrite !app_nil_r.
  - destruct (update_stock m i q (items (live d))) as [its n]. simpl.
    destruct (n =? 0); simpl; eexists _, _;
      (split; [|by rewrite !app_nil_r]); done.
Qed.

Lemma turns_lines_heard pid (l : list value) : ∀ d e rest snt lg k,
  ∃ d' e' lg',
    saved d' = saved d
    ∧ turns (2 * length l + k) F
            (State d e (runs (l ≫= line_actions pid) ++ rest) snt lg)
      = turns k F (State d' e' rest snt lg').
Proof.
  induction l as [|item l IH]; intros d e rest snt lg k.
  - by exists d, e, lg.
  - rewrite runs_lines.
    replace (2 * length (item :: l) + k)%nat
      with (S (S (2 * length l + k))) by (simpl; lia).
    rewrite !turns_S. simpl. rewrite step_insert_heard.
    edestruct step_update_any as (d1 & e1 & Hsaved1 & ->).
    rewrite <- runs_lines.
    edestruct (IH d1) as (d2 & e2 & lg2 & Hsaved2 & ->).
    exists d2, e2, lg2. split; [|done]. by rewrite Hsaved2, Hsaved1.
Qed.

(** On an idle connection, a purchase that passed the checks is answered,
    and answered once. *)
Lemma serve_purchase_answered body d :
  validate_purchase body = Valid → idle d →
  ∃ r, sent (serve F (post_purchases body) d) = [r].
Proof.
  intros Hvalid Hidle. destruct HF as (Hbegin & Hrollback & Hins).
  set (items := prop body "items").
  set (hdr := INSERT_INTO_purchases (text_of (prop body "customer_name"))
                (text_of (prop body "shipping_address"))).
  assert (post_purchases body false
          = ((), false,
             [Run BEGIN_TRANSACTION no_callback;
              Run hdr (purchase_inserted items)])) as Hh.
  { unfold post_purchases. by rewrite Hvalid. }
  unfold serve. rewrite Hh.
  change (runs _) with
    [(BEGIN_TRANSACTION, no_callback); (hdr, purchase_inserted items)].
  change (sends _) with (@nil response).
  match goal with
  | |- context [turns ?n F _] =>
      replace n with (S (S (2 * length (elements items) + 2)))
        by (unfold work; simpl; lia)
  end.
  (* BEGIN TRANSACTION *)
  erewrite turns_step; cycle 1.
  { done. }
  { unfold exec_with. rewrite Hbegin. simpl. by rewrite Hidle. }
  { done. }
  { done. }
  stepped.
  (* INSERT INTO purchases *)
  destruct (F hdr) as [er|] eqn:Hhdr.
  - erewrite turns_step; cycle 1.
    { done. }
    { unfold exec_with. by rewrite Hhdr. }
    { by apply on_purchase_inserted_err with (er := er). }
    { done. }
    stepped.
    replace (2 * length (elements items) + 2)%nat
      with (S (2 * length (elements items) + 1)) by lia.
    erewrite turns_step; cycle 1.
    { done. }
    { unfold exec_with. by rewrite Hrollback. }
    { done. }
    { done. }
    rewrite turns_idle by done. simpl. eauto.
  - erewrite turns_step; cycle 1.
    { done. }
    { unfold exec_with. rewrite Hhdr. reflexivity. }
    { by apply on_purchase_inserted_ok. }
    { by rewrite crashes_app, crashes_lines. }
    cbn [db stockError queue sent log app].
    rewrite runs_app, sends_app, sends_lines.
    edestruct (turns_lines_heard) as (d2 & e2 & lg2 & Hsaved & ->).
    simpl in Hsaved.
    change (runs [Run COMMIT ?cb]) with [(COMMIT, cb)].
    (* COMMIT *)
    destruct (F COMMIT) as [er|] eqn:Hcommit.
    + erewrite turns_step; cycle 1.
      { done. }
      { unfold exec_with. by rewrite Hcommit. }
      { done. }
      { done. }
      stepped.
      erewrite turns_step; cycle 1.
      { done. }
      { unfold exec_with. rewrite Hrollback. simpl. by rewrite Hsaved. }
      { done. }
      { done. }
      simpl. eauto.
    + erewrite turns_step; cycle 1.
      { done. }
      { unfold exec_with. rewrite Hcommit. simpl. by rewrite Hsaved. }
      { done. }
      { done. }
      rewrite turns_idle by done. simpl. eauto.
Qed.
End Heard.

(** An item request on the other hand always is: its one statement has a
    callback. *)
Lemma serve_item_answered F (h : sync ()) (s : stmt) (cb : callback) body d :
  (cb = item_inserted ∨ cb = item_updated) →
  h = match validate_item body with
      | Threw e => next e
      | Rejected msg => send (Response 400 (Error msg))
      | Valid => db_run s cb
      end →
  length (sent (serve F h d)) = 1%nat.
Proof.
  intros Hcb ->. unfold serve.
  destruct (validate_item body) as [|msg|e]; simpl; [|done..].
  unfold work. simpl.
  replace (weight cb) with 0%nat by (by destruct Hcb as [-> | ->]).
  simpl. unfold step. simpl.
  destruct (exec_with F s d) as [d' res]. simpl.
  destruct Hcb as [-> | ->]; simpl.
  - by destruct (err res).
  - destruct (err res); [done|]. by destruct (changes res =? 0).
Qed.


(** ** The claims *)

(** A single line finds its stock in a concrete store. *)
Ltac in_stock it := exists it; vm_compute; repeat split; discriminate.




(** C2 (the code departs from it): a request for more than the stock, or
    for an item that does not exist, is answered 201 and its header and
    line are committed; [ROLLBACK] is never issued, because l.164 reads
    [stockError] before any callback of [updateStock.run] has run. *)
Theorem C2_unaffordable_purchase_is_committed :
  let st := serve no_faults (post_purchases (order [line 1 5])) (shop 2) in
  let st' := serve no_faults (post_purchases (order [line 7 1])) (shop 2) in
  sent st = [Response 201 (PurchaseCreated 1)]
  ∧ log st = [BEGIN_TRANSACTION; INSERT_INTO_purchases "Ada" "1 Main St";
              INSERT_INTO_purchase_items 1 1 5; UPDATE_items_SET_stock 5 1 5;
              COMMIT]
  ∧ saved (db st) = None
  ∧ purchases (live (db st)) = [Purchase 1 "Ada" "1 Main St"]
  ∧ purchase_items (live (db st)) = [PurchaseItem 1 1 1 5]
  ∧ items (live (db st)) !! 1 = Some (Item "pen" 2 (Finite 5))
  ∧ stockError st = true
  ∧ sent st' = [Response 201 (PurchaseCreated 1)]
  ∧ purchases (live (db st')) = [Purchase 1 "Ada" "1 Main St"]
  ∧ purchase_items (live (db st')) = [PurchaseItem 1 1 7 1].
Proof. vm_compute. repeat split. Qed.

(** C3, as the code has it: the conditional decrement of [updateStock],
    for a quantity [q > 0], changes one row when the item exists with a
    stock of at least [q], and changes no row and nothing at all
    otherwise; it leaves every other row and table alone.  The row it
    changes keeps its name and price, and its stock is what it was less
    [q] when that stock is below 2^53; in every case the new stock is at
    least zero, so that no purchase request, whatever it contains, whatever
    the storage layer fails and in whatever order its statements are
    executed, leaves a stock below zero. *)
Theorem C3_conditional_decrement (t : tables) (id q : Z) :
  0 < q →
  let t' := (exec_tables (UPDATE_items_SET_stock q id q) t).1 in
  let res := (exec_tables (UPDATE_items_SET_stock q id q) t).2 in
  err res = None
  ∧ (changes res = 0 ∨ changes res = 1)
  ∧ (changes res = 1 ↔ ∃ it, items t !! id = Some it ∧ q ≤ item_stock it)
  ∧ (∀ it, items t !! id = Some it → q ≤ item_stock it →
           ∃ s, items t' = <[id := set_stock s it]> (items t)
                ∧ 0 ≤ s
                ∧ (item_stock it < 2 ^ 53 → s = item_stock it - q))
  ∧ (changes res = 0 → t' = t)
  ∧ (∀ j, j ≠ id → items t' !! j = items t !! j)
  ∧ purchases t' = purchases t
  ∧ purchase_items t' = purchase_items t
  ∧ (stocks_nonneg (items t) → stocks_nonneg (items t'))
  ∧ (∀ F body d, db_nonneg d →
                 db_nonneg (db (serve F (post_purchases body) d)))
  ∧ (∀ F body d picks,
        db_nonneg d →
        db_nonneg (pool_db (Parallel.run F picks
                              (Parallel.start (post_purchases body) d)))).
Proof.
  intros Hq t' res. subst t' res. simpl.
  pose proof (update_stock_nonneg q id (items t)) as Hnn.
  destruct (update_stock_cases (items t) id q q)
    as [(it & Hit & Hle & Heq)|[Hmiss Heq]]; rewrite Heq in *; simpl in *.
  - split_and!; try done.
    + by right.
    + split; [eauto | done].
    + intros it' Hit' _. assert (it' = it) as -> by congruence.
      exists (subtract (item_stock it) q). split_and!; [done| |].
      * by apply subtract_nonneg.
      * intros Hex. apply subtract_exact; lia.
    + intros j Hj. by rewrite lookup_insert_ne.
    + apply post_purchases_nonneg.
    + intros F body d picks. apply run_purchases_nonneg.
  - split_and!; try done.
    + by left.
    + split; [done|]. intros (it & Hit & Hle). specialize (Hmiss it Hit). lia.
    + intros it Hit Hle. specialize (Hmiss it Hit). lia.
    + intros _. by destruct t.
    + apply post_purchases_nonneg.
    + intros F body d picks. apply run_purchases_nonneg.
Qed.

(** Three of the ten in stock are taken. *)
Lemma C3_ten_minus_three :
  0 < 3
  ∧ changes (exec_tables (UPDATE_items_SET_stock 3 1 3) (live (shop 10))).2 = 1
  ∧ items (exec_tables (UPDATE_items_SET_stock 3 1 3) (live (shop 10))).1 !! 1
    = Some (Item "pen" 7 (Finite 5)).
Proof.
  pose proof (C3_conditional_decrement (live (shop 10)) 1 3 eq_refl) as H.
  cbv zeta in H. destruct H as (_ & _ & Hone & Hrow & _).
  assert (items (live (shop 10)) !! 1 = Some (Item "pen" 10 (Finite 5)))
    as Hit by reflexivity.
  split; [reflexivity|]. split.
  - apply Hone. eexists. split; [exact Hit|]. simpl. lia.
  - destruct (Hrow _ Hit) as (s & -> & _ & Hs); [simpl; lia|].
    rewrite Hs by reflexivity. reflexivity.
Defined.

(** The claim as it stands, for any stock: with a stock of 1e20 and a
    quantity of 1 the statement changes one row, and the stock it leaves
    is 1e20, not 1e20 - 1. *)
Lemma C3_stock_held_as_a_double :
  0 < 1
  ∧ items (live (shop (10 ^ 20))) !! 1 = Some (Item "pen" (10 ^ 20) (Finite 5))
  ∧ 1 ≤ item_stock (Item "pen" (10 ^ 20) (Finite 5))
  ∧ changes (exec_tables (UPDATE_items_SET_stock 1 1 1)
                         (live (shop (10 ^ 20)))).2 = 1
  ∧ items (exec_tables (UPDATE_items_SET_stock 1 1 1)
                       (live (shop (10 ^ 20)))).1 !! 1
    = Some (Item "pen" (10 ^ 20) (Finite 5))
  ∧ items (exec_tables (UPDATE_items_SET_stock 1 1 1)
                       (live (shop (10 ^ 20)))).1
    ≠ <[1 := set_stock (item_stock (Item "pen" (10 ^ 20) (Finite 5)) - 1)
                       (Item "pen" (10 ^ 20) (Finite 5))]>
        (items (live (shop (10 ^ 20)))).
Proof.
  split; [reflexivity|]. split; [reflexivity|]. split; [by vm_compute|].
  split; [reflexivity|]. split; [reflexivity|].
  intros H. apply (f_equal (λ m, item_stock <$> m !! 1)) in H.
  vm_compute in H. discriminate.
Qed.

(** A request with the item identifier -1: the checks let it through,
    although -1 is not a positive integer. *)
Lemma C4_negative_item_id_passes :
  ¬ (rejects (order [line (-1) 3]) ↔ invalid_as_specified (order [line (-1) 3])).
Proof.
  intros [_ Hrej]. destruct Hrej as [msg Hmsg]; [|by vm_compute in Hmsg].
  right. right. right. exists (line (-1) 3). split; [by left|].
  left. intros [_ Hpos]. by vm_compute in Hpos.
Qed.

(** C4, as the code has it: a request whose body is not [null] and none
    of whose lines is [null] is answered 400, with no statement issued
    and the store untouched, exactly when the customer name or the
    shipping address is not a non-empty text, the lines are not a
    non-empty array, some line's item identifier is not an integer other
    than zero, or some line's quantity is not a positive integer; any
    other such request passes the checks. *)
Theorem C4_validator_rejects_exactly (body : value) :
  nullish body = false →
  Forall (λ item, nullish item = false) (elements (prop body "items")) →
  (rejects body ↔ invalid_as_checked body)
  ∧ (¬ rejects body → validate_purchase body = Valid)
  ∧ (∀ F d msg,
        validate_purchase body = Rejected msg →
        serve F (post_purchases body) d
        = State d false [] [Response 400 (Error msg)] []).
Proof.
  intros Hbody Hlines.
  destruct (validate_purchase_not_null body Hbody Hlines)
    as [[Hvalid Hok]|[Hrej Hinv]]; split_and!.
  - split; [|done]. intros [msg Hmsg]. congruence.
  - done.
  - intros F d msg Hmsg. congruence.
  - done.
  - done.
  - intros F d msg Hmsg.
    destruct (serve_not_valid F body d) as (r & -> & Hr); [congruence|].
    by rewrite (Hr msg Hmsg).
Qed.

(** A line that asks for a quantity of zero is refused. *)
Lemma C4_zero_quantity_rejected :
  nullish (order [line 1 0]) = false
  ∧ Forall (λ item, nullish item = false)
           (elements (prop (order [line 1 0]) "items"))
  ∧ rejects (order [line 1 0]).
Proof.
  assert (Forall (λ item, nullish item = false)
                 (elements (prop (order [line 1 0]) "items"))) as Hlines.
  { repeat constructor. }
  split; [reflexivity|]. split; [exact Hlines|].
  apply (C4_validator_rejects_exactly (order [line 1 0]) eq_refl Hlines).
  right. right. right. exists (line 1 0). split; [by left|].
  right. intros [_ Hpos]. by vm_compute in Hpos.
Defined.

(** C5 (the code departs from it): with a stock of 5 and two lines of 3
    on the same item, the decrements run in the order of the request and
    the second changes no row ([stockError] ends up set), but the purchase
    is committed all the same: both lines are recorded, the answer is 201
    and the stock is 2, not 5. *)
Theorem C5_joint_overdraw_is_committed :
  let st := serve no_faults (post_purchases (order [line 1 3; line 1 3]))
                  (shop 5) in
  log st = [BEGIN_TRANSACTION; INSERT_INTO_purchases "Ada" "1 Main St";
            INSERT_INTO_purchase_items 1 1 3; UPDATE_items_SET_stock 3 1 3;
            INSERT_INTO_purchase_items 1 1 3; UPDATE_items_SET_stock 3 1 3;
            COMMIT]
  ∧ changes (exec_tables (UPDATE_items_SET_stock 3 1 3)
               (exec_tables (UPDATE_items_SET_stock 3 1 3)
                            (live (shop 5))).1).2 = 0
  ∧ stockError st = true
  ∧ sent st = [Response 201 (PurchaseCreated 1)]
  ∧ saved (db st) = None
  ∧ purchases (live (db st)) = [Purchase 1 "Ada" "1 Main St"]
  ∧ purchase_items (live (db st))
    = [PurchaseItem 1 1 1 3; PurchaseItem 2 1 1 3]
  ∧ items (live (db st)) !! 1 = Some (Item "pen" 2 (Finite 5)).
Proof. vm_compute. repeat split. Qed.

(** C6 (the code departs from it): six lines of 1 against a stock of 10,
    and a storage layer that fails the [COMMIT].  The answer is the 500 of
    the error handler and [ROLLBACK] is issued, but the statements of the
    lines, [COMMIT] and [ROLLBACK] wait on different objects of the
    driver: in the schedule in which [COMMIT] and then [ROLLBACK] are
    executed when five lines are done and the statements of the sixth
    still wait, that line is executed outside the transaction and stays.
    The store has a [purchase_items] row without its header and a stock of
    9.  (In the schedule that executes the statements in the order issued,
    the store is restored; and the answer to a failed [COMMIT] is the same
    500 whatever the error.) *)
Theorem C6_lines_after_the_rollback_stay :
  let F := commit_fails "disk I/O error" in
  let st := Parallel.run F
              [0; 0; 1; 2; 1; 2; 1; 2; 1; 2; 1; 2; 3; 4; 1; 2]%nat
              (Parallel.start (post_purchases six_pens) (shop 10)) in
  Parallel.finished st
  ∧ pool_log st
    = [BEGIN_TRANSACTION; INSERT_INTO_purchases "Ada" "1 Main St";
       INSERT_INTO_purchase_items 1 1 1; UPDATE_items_SET_stock 1 1 1;
       INSERT_INTO_purchase_items 1 1 1; UPDATE_items_SET_stock 1 1 1;
       INSERT_INTO_purchase_items 1 1 1; UPDATE_items_SET_stock 1 1 1;
       INSERT_INTO_purchase_items 1 1 1; UPDATE_items_SET_stock 1 1 1;
       INSERT_INTO_purchase_items 1 1 1; UPDATE_items_SET_stock 1 1 1;
       COMMIT; ROLLBACK;
       INSERT_INTO_purchase_items 1 1 1; UPDATE_items_SET_stock 1 1 1]
  ∧ pool_sent st = [Response 500 (Error "Internal Server Error")]
  ∧ saved (pool_db st) = None
  ∧ purchases (live (pool_db st)) = []
  ∧ purchase_items (live (pool_db st)) = [PurchaseItem 1 1 1 1]
  ∧ items (live (pool_db st)) !! 1 = Some (Item "pen" 9 (Finite 5))
  ∧ pool_db st ≠ shop 10
  ∧ db (serve F (post_purchases six_pens) (shop 10)) = shop 10
  ∧ (∀ e body d,
        validate_purchase body = Valid → idle d →
        sent (serve (commit_fails e) (post_purchases body) d)
        = [Response 500 (Error "Internal Server Error")]).
Proof.
  cbv zeta. split; [vm_compute; repeat constructor|].
  split; [reflexivity|]. split; [reflexivity|]. split; [reflexivity|].
  split; [reflexivity|]. split; [reflexivity|]. split; [reflexivity|].
  split; [|split; [by vm_compute|]].
  - intros H. apply (f_equal (λ d, purchase_items (live d))) in H.
    vm_compute in H. discriminate.
  - intros e body d Hvalid Hidle.
    destruct (serve_purchase (commit_fails e) body d) as [e' ->];
      [apply commit_fails_only | done..|].
    reflexivity.
Qed.

(** C7: a valid request whose lines all find their stock, submitted twice
    in a row with the lines finding their stock again, is answered twice
    with 201 and two different purchase identifiers, and leaves two header
    rows behind. *)
Theorem C7_resubmission_is_a_second_purchase (body : value) (d : database) :
  validate_purchase body = Valid →
  idle d →
  lines_in_stock (items (live d)) (lines_of body) →
  lines_in_stock
    (items (live (db (serve no_faults (post_purchases body) d))))
    (lines_of body) →
  let st1 := serve no_faults (post_purchases body) d in
  let st2 := serve no_faults (post_purchases body) (db st1) in
  ∃ id1 id2,
    sent st1 = [Response 201 (PurchaseCreated id1)]
    ∧ sent st2 = [Response 201 (PurchaseCreated id2)]
    ∧ id1 ≠ id2
    ∧ purchases (live (db st2))
      = purchases (live d) ++ [header id1 body; header id2 body].
Proof.
  intros Hvalid Hidle _ _ st1 st2. subst st1 st2.
  destruct (serve_purchase no_faults body d) as [e1 ->];
    [apply no_faults_only | done..|].
  simpl.
  destruct (serve_purchase no_faults body
              (Database (booked body (live d)) None)) as [e2 ->];
    [apply no_faults_only | done..|].
  simpl.
  destruct (booked_purchases body (live d)) as [Hrows Hseq].
  destruct (booked_purchases body (booked body (live d))) as [Hrows2 _].
  exists (next_purchase_id (live d)), (next_purchase_id (booked body (live d))).
  split_and!; try done.
  - assert (purchases_seq (booked body (live d))
            < next_purchase_id (booked body (live d))) as Habove
      by apply next_rowid_above.
    rewrite Hseq in Habove. lia.
  - rewrite Hrows2, Hrows, <- app_assoc. done.
Qed.

Lemma C7_scenario_A_twice :
  validate_purchase (order [line 1 3]) = Valid
  ∧ idle (shop 10)
  ∧ lines_in_stock (items (live (shop 10))) (lines_of (order [line 1 3]))
  ∧ lines_in_stock
      (items (live (db (serve no_faults (post_purchases (order [line 1 3]))
                              (shop 10)))))
      (lines_of (order [line 1 3]))
  ∧ ∃ id1 id2,
      sent (serve no_faults (post_purchases (order [line 1 3])) (shop 10))
      = [Response 201 (PurchaseCreated id1)]
      ∧ sent (serve no_faults (post_purchases (order [line 1 3]))
                (db (serve no_faults (post_purchases (order [line 1 3]))
                           (shop 10))))
        = [Response 201 (PurchaseCreated id2)]
      ∧ id1 ≠ id2.
Proof.
  assert (lines_in_stock (items (live (shop 10)))
                         (lines_of (order [line 1 3]))) as Hstock.
  { in_stock (Item "pen" 10 (Finite 5)). }
  assert (lines_in_stock
            (items (live (db (serve no_faults
                                (post_purchases (order [line 1 3]))
                                (shop 10)))))
            (lines_of (order [line 1 3]))) as Hagain.
  { in_stock (Item "pen" 7 (Finite 5)). }
  pose proof (C7_resubmission_is_a_second_purchase (order [line 1 3]) (shop 10)
                eq_refl eq_refl Hstock Hagain) as H.
  cbv zeta in H. destruct H as (id1 & id2 & Hsent1 & Hsent2 & Hne & _).
  split; [reflexivity|]. split; [reflexivity|].
  split; [exact Hstock|]. split; [exact Hagain|].
  exists id1, id2. split; [exact Hsent1|]. split; [exact Hsent2 | exact Hne].
Defined.

(** C8: a purchase request that does not pass the checks is answered at
    once: no statement reaches the driver (no [BEGIN TRANSACTION], no read,
    no write), nothing is left queued and the connection is as it was; when
    the checks answer with a message, the response is 400 with that
    message. *)
Theorem C8_no_storage_access (F : faults) (body : value) (d : database) :
  validate_purchase body ≠ Valid →
  let st := serve F (post_purchases body) d in
  log st = []
  ∧ queue st = []
  ∧ db st = d
  ∧ runs (post_purchases body false).2 = []
  ∧ ∀ msg, validate_purchase body = Rejected msg →
           sent st = [Response 400 (Error msg)].
Proof.
  intros Hnot st. subst st.
  destruct (serve_not_valid F body d Hnot) as (r & -> & Hr). simpl.
  split_and!; try done.
  - unfold post_purchases. by destruct (validate_purchase body).
  - intros msg Hmsg. by rewrite (Hr msg Hmsg).
Qed.

(** Scenario C: no lines. *)
Lemma C8_scenario_C :
  validate_purchase (order []) ≠ Valid
  ∧ log (serve no_faults (post_purchases (order [])) (shop 5)) = []
  ∧ db (serve no_faults (post_purchases (order [])) (shop 5)) = shop 5
  ∧ sent (serve no_faults (post_purchases (order [])) (shop 5))
    = [Response 400 (Error "At least one item is required")].
Proof.
  assert (validate_purchase (order []) ≠ Valid) as Hnot by discriminate.
  pose proof (C8_no_storage_access no_faults (order []) (shop 5) Hnot) as H.
  cbv zeta in H. destruct H as (Hlog & _ & Hdb & _ & Hsent).
  split; [exact Hnot|]. split; [exact Hlog|]. split; [exact Hdb|].
  apply Hsent. reflexivity.
Defined.

(** C9 (the code departs from it): two purchases of 3 against a stock of
    5, one served after the other: the first takes 3, the decrement of the
    second changes no row, and yet both are answered 201 and both are
    committed, where the stock allows one.  The stock itself ends at 2 and
    never goes below zero. *)
Theorem C9_more_purchases_commit_than_stock_allows :
  let st1 := serve no_faults (post_purchases (order [line 1 3])) (shop 5) in
  let st2 := serve no_faults (post_purchases (order [line 1 3])) (db st1) in
  sent st1 = [Response 201 (PurchaseCreated 1)]
  ∧ sent st2 = [Response 201 (PurchaseCreated 2)]
  ∧ stockError st2 = true
  ∧ saved (db st2) = None
  ∧ purchases (live (db st2))
    = [Purchase 1 "Ada" "1 Main St"; Purchase 2 "Ada" "1 Main St"]
  ∧ purchase_items (live (db st2))
    = [PurchaseItem 1 1 1 3; PurchaseItem 2 2 1 3]
  ∧ items (live (db st2)) !! 1 = Some (Item "pen" 2 (Finite 5)).
Proof. vm_compute. repeat split. Qed.

(** C10: [POST /items] and [PUT /items/:id] answer 400, without issuing a
    statement, every request whose name is not a string, whose stock is not
    an integer of at least zero or whose price is not a number of at least
    zero; every statement they do issue, and so every row they write, has a
    stock and a price of at least zero, and the request is served to the
    end. *)
Theorem C10_item_checks (F : faults) (id : Z) (body : value) (d : database) :
  (nullish body = false → invalid_item body →
   ∃ msg,
     serve F (post_items body) d = State d false [] [Response 400 (Error msg)] []
     ∧ serve F (put_items id body) d
       = State d false [] [Response 400 (Error msg)] [])
  ∧ (∀ st, st = serve F (post_items body) d
           ∨ st = serve F (put_items id body) d →
       queue st = []
       ∧ Forall writes_nonneg (log st)
       ∧ ∀ j it, items (live (db st)) !! j = Some it →
                 items (live d) !! j = Some it
                 ∨ (0 ≤ item_stock it ∧ number_nonneg (item_price it))).
Proof.
  split.
  - intros Hbody Hinv.
    destruct (validate_item_invalid body Hbody Hinv) as [msg Hmsg].
    exists msg. unfold serve, post_items, put_items. by rewrite Hmsg.
  - intros st Hst.
    assert (∃ s h cb,
      st = serve F h d
      ∧ (cb = item_inserted ∨ cb = item_updated)
      ∧ h = match validate_item body with
            | Threw e => next e
            | Rejected msg => send (Response 400 (Error msg))
            | Valid => db_run s cb
            end
      ∧ ((∃ n k p, s = INSERT_INTO_items n k p)
         ∨ (∃ n k p i, s = UPDATE_items n k p i))
      ∧ (validate_item body = Valid → writes_nonneg s))
      as (s & h & cb & -> & Hcb & Hh & Hs & Hw).
    all: try (split; [apply serve_drains|]).
    { destruct Hst as [-> | ->].
      - eexists _, _, item_inserted. split; [done|]. split; [by left|].
        split; [done|]. split; [left; eauto|].
        intros Hvalid. by apply validate_item_valid.
      - eexists _, _, item_updated. split; [done|]. split; [by right|].
        split; [done|]. split; [right; eauto|].
        intros Hvalid. by apply validate_item_valid. }
    destruct (serve_item_cases F h s cb body d Hcb Hh)
      as [(Hvalid & -> & ->)|(_ & -> & -> & _)].
    + split; [repeat constructor; auto|].
      intros j it. apply exec_item_rows; auto.
    + split; [constructor|]. intros j it ?. by left.
Qed.

(** A stock of -1 is refused by both endpoints; nothing is written. *)
Lemma C10_negative_stock_refused :
  nullish (new_item (-1) 5) = false
  ∧ invalid_item (new_item (-1) 5)
  ∧ ∃ msg,
      serve no_faults (post_items (new_item (-1) 5)) (shop 5)
      = State (shop 5) false [] [Response 400 (Error msg)] []
      ∧ serve no_faults (put_items 1 (new_item (-1) 5)) (shop 5)
        = State (shop 5) false [] [Response 400 (Error msg)] [].
Proof.
  assert (invalid_item (new_item (-1) 5)) as Hinv.
  { right. left. intros [_ Hge]. by vm_compute in Hge. }
  split; [reflexivity|]. split; [exact Hinv|].
  exact (proj1 (C10_item_checks no_faults 1 (new_item (-1) 5) (shop 5))
               eq_refl Hinv).
Defined.

(** ** Further properties *)

(** *** One response per request *)

Lemma owed_app q1 q2 : owed (q1 ++ q2) = (owed q1 + owed q2)%nat.
Proof. apply sum_list_with_app. Qed.

Lemma owed_lines pid (l : list value) :
  owed (runs (l ≫= line_actions pid)) = 0%nat.
Proof.
  induction l as [|item l IH]; [done|].
  change ((item :: l) ≫= line_actions pid)
    with (line_actions pid item ++ (l ≫= line_actions pid)).
  by rewrite runs_app, owed_app, IH.
Qed.

Lemma call_owes cb res e :
  (length (sends (call cb res e).2) + owed (runs (call cb res e).2))%nat
  = owes cb.
Proof.
  destruct cb; simpl.
  - by destruct (err res).
  - by destruct (err res).
  - destruct (err res); [done|]. by destruct (changes res =? 0).
  - destruct (err res) as [er|] eqn:Herr.
    + by erewrite on_purchase_inserted_err.
    + rewrite on_purchase_inserted_ok by done. simpl.
      by rewrite runs_app, sends_app, sends_lines, owed_app, owed_lines.
  - by destruct (_ || _).
  - by destruct (err res).
Qed.

(** No turn adds to the responses sent and still owed; the end of the
    process takes away what is owed. *)
Lemma step_owes F st :
  (length (sent (step F st)) + owed (queue (step F st))
   ≤ length (sent st) + owed (queue st))%nat.
Proof.
  unfold step. destruct (queue st) as [|[s cb] rest] eqn:Hq;
    [by rewrite Hq|].
  destruct (exec_with F s (db st)) as [d res].
  pose proof (call_owes cb res (stockError st)) as Hcall.
  destruct (call cb res (stockError st)) as [[[] e] acts]. simpl in *.
  change (owed ((s, cb) :: rest)) with (owes cb + owed rest)%nat.
  destruct (crashes acts); simpl; rewrite length_app, ?owed_app;
    [change (owed []) with 0%nat|]; lia.
Qed.

Lemma turns_owes n F : ∀ st,
  (length (sent (turns n F st)) + owed (queue (turns n F st))
   ≤ length (sent st) + owed (queue st))%nat.
Proof.
  induction n as [|n IH]; intros st; [done|].
  rewrite turns_S. etrans; [apply IH | apply step_owes].
Qed.

Lemma serve_responses F (h : sync ()) d :
  (length (sent (serve F h d))
   ≤ length (sends (h false).2) + owed (runs (h false).2))%nat.
Proof.
  unfold serve. destruct (h false) as [[[] e] acts]. simpl.
  pose proof (turns_owes (work (runs acts)) F
                (State d e (runs acts) (sends acts) [])) as Howes.
  simpl in Howes. lia.
Qed.

(** X1: [POST /items] and [PUT /items/:id] answer a request exactly once,
    whatever the body, the state of the connection and the failures of
    the storage layer; so does [POST /purchases] on a connection with no
    open transaction, when the storage layer fails none of the statements
    that are run without a callback. *)
Theorem X1_one_response (F : faults) (id : Z) (body : value) (d : database) :
  length (sent (serve F (post_items body) d)) = 1%nat
  ∧ length (sent (serve F (put_items id body) d)) = 1%nat
  ∧ (idle d → heard F →
     length (sent (serve F (post_purchases body) d)) = 1%nat).
Proof.
  split_and!.
  - eapply serve_item_answered; [by left | reflexivity].
  - eapply serve_item_answered; [by right | reflexivity].
  - intros Hidle HF.
    destruct (validate_purchase body) as [|msg|e] eqn:Hv.
    + by destruct (serve_purchase_answered F HF body d Hv Hidle) as [r ->].
    + unfold serve, post_purchases. by rewrite Hv.
    + unfold serve, post_purchases. by rewrite Hv.
Qed.

(** A purchase whose second decrement fails at the storage layer. *)
Lemma X1_a_failed_decrement_is_answered :
  idle (shop 5)
  ∧ heard (λ s, match s with
                | UPDATE_items_SET_stock _ _ 2 => Some "disk I/O error"
                | _ => None
                end)
  ∧ length (sent (serve (λ s, match s with
                              | UPDATE_items_SET_stock _ _ 2 =>
                                  Some "disk I/O error"
                              | _ => None
                              end)
                        (post_purchases (order [line 1 3; line 1 2]))
                        (shop 5)))
    = 1%nat.
Proof.
  assert (heard (λ s, match s with
                      | UPDATE_items_SET_stock _ _ 2 => Some "disk I/O error"
                      | _ => None
                      end)) as HF by done.
  split; [reflexivity|]. split; [exact HF|].
  exact (proj2 (proj2 (X1_one_response _ 1 (order [line 1 3; line 1 2])
                                       (shop 5))) eq_refl HF).
Defined.

(** *** How a purchase request can end *)

Lemma validate_lines_messages items msg :
  validate_lines items = Rejected msg → msg ∈ purchase_messages.
Proof.
  unfold purchase_messages.
  induction items as [|item items IH]; simpl; [done|].
  destruct (nullish item); [done|].
  destruct (_ || _); [intros [= <-]; repeat constructor|].
  destruct (_ || _); [intros [= <-]; repeat constructor|]. done.
Qed.

Lemma validate_purchase_messages body msg :
  validate_purchase body = Rejected msg → msg ∈ purchase_messages.
Proof.
  unfold validate_purchase. destruct (nullish body); [done|].
  destruct (_ || _); [intros [= <-]; repeat constructor|].
  destruct (_ || _); [intros [= <-]; repeat constructor|].
  destruct (_ || _); [intros [= <-]; repeat constructor|].
  apply validate_lines_messages.
Qed.

Lemma lines_entries pid (l : list value) :
  Forall purchase_entry (runs (l ≫= line_actions pid))
  ∧ ROLLBACK ∉ (runs (l ≫= line_actions pid)).*1.
Proof.
  induction l as [|item l [IH1 IH2]];
    [split; [constructor | by intros ?%elem_of_nil]|].
  change ((item :: l) ≫= line_actions pid)
    with (line_actions pid item ++ (l ≫= line_actions pid)).
  rewrite runs_app. split.
  - apply Forall_app. split; [repeat constructor | done].
  - rewrite fmap_app, not_elem_of_app. split; [|done]. simpl.
    rewrite !not_elem_of_cons. split_and!; try done. by intros ?%elem_of_nil.
Qed.

Ltac in_nil :=
  intros; match goal with H : _ ∈ [] |- _ => by apply elem_of_nil in H end.

(** What a callback of the purchase can add to the queue and to the
    responses. *)
Lemma call_purchase s cb res e :
  purchase_entry (s, cb) →
  Forall purchase_entry (runs (call cb res e).2)
  ∧ Forall purchase_answer (sends (call cb res e).2)
  ∧ (ROLLBACK ∈ (runs (call cb res e).2).*1 →
     server_error ∈ sends (call cb res e).2)
  ∧ (∀ pid, Response 201 (PurchaseCreated pid) ∈ sends (call cb res e).2 →
            s = COMMIT).
Proof.
  unfold purchase_entry, server_error, error_handler.
  destruct cb as [| | |its| |pid0]; simpl; try done.
  - intros _. destruct (err res); simpl;
      (split_and!; [constructor | constructor | in_nil | in_nil]).
  - intros _. destruct (err res) as [er|] eqn:Herr.
    + erewrite on_purchase_inserted_err by done. simpl. split_and!.
      * by repeat constructor.
      * constructor; [by left | constructor].
      * intros _. apply list_elem_of_singleton. done.
      * intros pid Hin. by apply list_elem_of_singleton in Hin.
    + rewrite on_purchase_inserted_ok by done. simpl.
      rewrite runs_app, sends_app, sends_lines. simpl.
      destruct (lines_entries (lastID res) (elements its)) as [Hq Hno].
      split_and!.
      * apply Forall_app. split; [done|]. by repeat constructor.
      * constructor.
      * rewrite fmap_app, elem_of_app. simpl.
        intros [Hin|Hin]; [done|]. by apply list_elem_of_singleton in Hin.
      * in_nil.
  - intros _. destruct (_ || _); simpl;
      (split_and!; [constructor | constructor | in_nil | in_nil]).
  - intros ->. destruct (err res) as [er|]; simpl; split_and!.
    + by repeat constructor.
    + constructor; [by left | constructor].
    + intros _. by apply list_elem_of_singleton.
    + done.
    + constructor.
    + constructor; [right; eauto | constructor].
    + in_nil.
    + done.
Qed.

Lemma step_purchase_course F st :
  purchase_course st → purchase_course (step F st).
Proof.
  intros (Hq & Hs & Hrb & Hok). unfold step.
  destruct (queue st) as [|[s cb] rest] eqn:Hqueue.
  { split_and!; by rewrite ?Hqueue. }
  apply Forall_cons in Hq as [Hentry Hrest].
  destruct (exec_with F s (db st)) as [d res].
  destruct (call_purchase s cb res (stockError st) Hentry)
    as (Hq' & Hs' & Hrb' & Hok').
  destruct (call cb res (stockError st)) as [[[] e] acts].
  simpl in *. rewrite elem_of_cons in Hrb.
  assert (∀ pid, Response 201 (PurchaseCreated pid) ∈ sent st ++ sends acts →
                 COMMIT ∈ log st ++ [s]) as Hok''.
  { intros pid. rewrite !elem_of_app, list_elem_of_singleton.
    intros [Hin|Hin];
      [left; by apply (Hok pid) | right; symmetry; by apply (Hok' pid)]. }
  destruct (crashes acts); split_and!; simpl; try done.
  - by apply Forall_app.
  - rewrite !elem_of_app, list_elem_of_singleton.
    intros [[Hlog|Heq]|Hin%elem_of_nil]; [left; apply Hrb; tauto..|done].
  - by apply Forall_app.
  - by apply Forall_app.
  - rewrite fmap_app, !elem_of_app, list_elem_of_singleton.
    intros [[Hlog|Heq]|[Hin|Hin]]; [left; apply Hrb; tauto..|].
    right. by apply Hrb'.
Qed.

Lemma turns_purchase_course n F : ∀ st,
  purchase_course st → purchase_course (turns n F st).
Proof.
  induction n as [|n IH]; intros st Hst; [done|].
  rewrite turns_S. by apply IH, step_purchase_course.
Qed.

Lemma serve_purchase_course F (h : sync ()) d :
  (let '(_, e, acts) := h false in
   purchase_course (State d e (runs acts) (sends acts) [])) →
  purchase_course (serve F h d).
Proof.
  unfold serve. destruct (h false) as [[[] e] acts].
  apply turns_purchase_course.
Qed.

(** X2: a purchase request is answered at most once, and never with
    "Insufficient stock or invalid item".  If [ROLLBACK] was executed the
    answer was the 500 of the error handler; an answer 201 means [COMMIT]
    was executed and no [ROLLBACK] was; a request that passed the checks
    is answered 201 or 500 and nothing else. *)
Theorem X2_purchase_outcomes (F : faults) (body : value) (d : database) :
  let st := serve F (post_purchases body) d in
  (length (sent st) ≤ 1)%nat
  ∧ (no_stock_answer ∉ sent st)
  ∧ (ROLLBACK ∈ log st → sent st = [server_error])
  ∧ (∀ pid, Response 201 (PurchaseCreated pid) ∈ sent st →
            COMMIT ∈ log st ∧ ROLLBACK ∉ log st)
  ∧ (validate_purchase body = Valid → Forall purchase_answer (sent st)).
Proof.
  intros st. subst st.
  pose proof (serve_responses F (post_purchases body) d) as Hone.
  destruct (validate_purchase body) as [|msg|e] eqn:Hv.
  - assert (purchase_course (serve F (post_purchases body) d)) as Hcourse.
    { apply serve_purchase_course. unfold post_purchases.
      rewrite Hv, sync_bind_eq. simpl. split_and!; simpl.
      - by repeat constructor.
      - constructor.
      - intros [Hin|Hin]; [in_nil|].
        apply elem_of_cons in Hin as [|Hin]; [done|].
        by apply list_elem_of_singleton in Hin.
      - in_nil. }
    unfold post_purchases at 2 3 in Hone. rewrite Hv in Hone.
    simpl in Hone.
    destruct Hcourse as (_ & Hs & Hrb & Hok).
    destruct (sent (serve F (post_purchases body) d)) as [|r [|]] eqn:Hsent;
      simpl in Hone; try lia.
    + split_and!.
      * done.
      * by intros ?%elem_of_nil.
      * intros Hin. specialize (Hrb (or_introl Hin)).
        by apply elem_of_nil in Hrb.
      * by intros pid ?%elem_of_nil.
      * done.
    + assert (server_error ∈ [r] → r = server_error) as Hone500.
      { by intros ->%list_elem_of_singleton. }
      pose proof Hs as Hr. rewrite Forall_singleton in Hr.
      split_and!.
      * done.
      * intros Hin%list_elem_of_singleton. subst r.
        unfold purchase_answer in Hr. by destruct Hr as [Hr|[pid Hr]].
      * intros Hin. f_equal. apply Hone500, Hrb. by left.
      * intros pid Hpid. split; [by apply (Hok pid)|].
        apply list_elem_of_singleton in Hpid. subst r.
        intros Hin. specialize (Hone500 (Hrb (or_introl Hin))). done.
      * done.
  - pose proof (validate_purchase_messages body msg Hv) as Hmsg.
    unfold serve, post_purchases. rewrite Hv. simpl. split_and!.
    + done.
    + unfold purchase_messages in Hmsg.
      intros Hin%list_elem_of_singleton. injection Hin as <-.
      repeat (apply elem_of_cons in Hmsg as [Hmsg|Hmsg]; [done|]).
      by apply elem_of_nil in Hmsg.
    + by intros ?%elem_of_nil.
    + intros pid Hin%list_elem_of_singleton. done.
    + done.
  - unfold serve, post_purchases. rewrite Hv. simpl. split_and!.
    + done.
    + by intros Hin%list_elem_of_singleton.
    + by intros ?%elem_of_nil.
    + intros pid Hin%list_elem_of_singleton. done.
    + done.
Qed.

(** *** What a request that passed the checks leaves behind *)

Lemma set_stock_twice s s' it : set_stock s (set_stock s' it) = set_stock s it.
Proof. done. Qed.




(** *** The order of the checks *)

Lemma validate_lines_good good rest :
  Forall good_line good →
  validate_lines (good ++ rest) = validate_lines rest.
Proof.
  induction 1 as [|item good (Hnull & Hid & Hq) _ IH]; [done|].
  simpl. rewrite Hnull.
  apply check_item_id in Hid. apply check_quantity in Hq.
  by rewrite Hid, Hq.
Qed.

Lemma post_purchases_refused F body d v :
  validate_purchase body = v → v ≠ Valid →
  serve F (post_purchases body) d
  = State d false []
          [match v with
           | Rejected msg => Response 400 (Error msg)
           | _ => server_error
           end] [].
Proof.
  intros <- Hnot. unfold serve, post_purchases.
  by destruct (validate_purchase body).
Qed.

(** X4: the lines are checked in the order of the request and the first
    line that fails decides the answer, its item identifier before its
    quantity; the lines after it are not looked at.  A [null] line in that
    place makes the handler throw: the answer is 500, not 400.  In each
    case no statement is issued. *)
Theorem X4_first_bad_line_decides (F : faults) (body : value)
    (good rest : list value) (bad : value) (d : database) :
  nullish body = false →
  nonempty_text (prop body "customer_name") →
  nonempty_text (prop body "shipping_address") →
  prop body "items" = VArr (good ++ bad :: rest) →
  Forall good_line good →
  let st := serve F (post_purchases body) d in
  (nullish bad = true → st = State d false [] [server_error] [])
  ∧ (nullish bad = false → ¬ nonzero_integer (prop bad "item_id") →
     st = State d false []
                [Response 400 (Error "Item ID must be an integer")] [])
  ∧ (nullish bad = false → nonzero_integer (prop bad "item_id") →
     ¬ positive_integer (prop bad "quantity") →
     st = State d false []
                [Response 400 (Error "Quantity must be a positive integer")]
                []).
Proof.
  intros Hbody Hname Haddr Hitems Hgood st. subst st.
  assert (validate_purchase body = validate_lines (bad :: rest)) as Hv.
  { unfold validate_purchase. rewrite Hbody.
    apply check_text in Hname, Haddr. rewrite Hname, Haddr, Hitems.
    cbn [elements Array_isArray negb orb].
    assert ((length (good ++ bad :: rest) =? 0)%nat = false) as ->.
    { apply Nat.eqb_neq. rewrite length_app. simpl. lia. }
    by apply validate_lines_good. }
  simpl in Hv. split_and!.
  - intros Hnull. rewrite Hnull in Hv.
    by rewrite (post_purchases_refused F body d _ Hv).
  - intros Hnull Hid. rewrite Hnull in Hv.
    rewrite <- check_item_id in Hid. apply not_false_is_true in Hid.
    rewrite Hid in Hv. by rewrite (post_purchases_refused F body d _ Hv).
  - intros Hnull Hid Hq. rewrite Hnull in Hv.
    apply check_item_id in Hid. rewrite Hid in Hv.
    rewrite <- check_quantity in Hq. apply not_false_is_true in Hq.
    rewrite Hq in Hv. by rewrite (post_purchases_refused F body d _ Hv).
Qed.

(** A good line, then [null], then a line that is wrong twice. *)
Lemma X4_null_after_a_good_line :
  nullish (order [line 1 1; null; line 0 0]) = false
  ∧ nonempty_text (prop (order [line 1 1; null; line 0 0]) "customer_name")
  ∧ nonempty_text (prop (order [line 1 1; null; line 0 0])
                        "shipping_address")
  ∧ Forall good_line [line 1 1]
  ∧ serve no_faults (post_purchases (order [line 1 1; null; line 0 0]))
          (shop 5)
    = State (shop 5) false [] [server_error] [].
Proof.
  assert (nonempty_text (VStr "Ada")) as Hname by (eexists; by split).
  assert (nonempty_text (VStr "1 Main St")) as Haddr by (eexists; by split).
  assert (Forall good_line [line 1 1]) as Hgood.
  { repeat constructor; vm_compute; congruence. }
  split; [reflexivity|]. split; [exact Hname|]. split; [exact Haddr|].
  split; [exact Hgood|].
  apply (X4_first_bad_line_decides no_faults
           (order [line 1 1; null; line 0 0]) [line 1 1] [line 0 0] null
           (shop 5) eq_refl Hname Haddr eq_refl Hgood).
  reflexivity.
Defined.

(** X5: the head of a purchase request is checked before its lines, in
    the order customer name, shipping address, lines, and the first check
    that fails decides the message; a body that is [null] or missing makes
    the handler throw and is answered 500.  No statement is issued. *)
Theorem X5_first_failed_check_decides (F : faults) (body : value)
    (d : database) :
  let st := serve F (post_purchases body) d in
  (nullish body = true → st = State d false [] [server_error] [])
  ∧ (nullish body = false →
     ¬ nonempty_text (prop body "customer_name") →
     st = State d false []
                [Response 400 (Error "Customer name is required")] [])
  ∧ (nullish body = false →
     nonempty_text (prop body "customer_name") →
     ¬ nonempty_text (prop body "shipping_address") →
     st = State d false []
                [Response 400 (Error "Shipping address is required")] [])
  ∧ (nullish body = false →
     nonempty_text (prop body "customer_name") →
     nonempty_text (prop body "shipping_address") →
     ¬ nonempty_array (prop body "items") →
     st = State d false []
                [Response 400 (Error "At least one item is required")] []).
Proof.
  intros st. subst st. split_and!.
  - intros Hbody. apply (post_purchases_refused F body d (Threw "TypeError"));
      [|done]. unfold validate_purchase. by rewrite Hbody.
  - intros Hbody Hname.
    rewrite <- check_text in Hname. apply not_false_is_true in Hname.
    apply (post_purchases_refused F body d
             (Rejected "Customer name is required")); [|done].
    unfold validate_purchase. by rewrite Hbody, Hname.
  - intros Hbody Hname Haddr. apply check_text in Hname.
    rewrite <- check_text in Haddr. apply not_false_is_true in Haddr.
    apply (post_purchases_refused F body d
             (Rejected "Shipping address is required")); [|done].
    unfold validate_purchase. by rewrite Hbody, Hname, Haddr.
  - intros Hbody Hname Haddr Hitems. apply check_text in Hname, Haddr.
    rewrite <- check_array in Hitems. apply not_false_is_true in Hitems.
    apply (post_purchases_refused F body d
             (Rejected "At least one item is required")); [|done].
    unfold validate_purchase. by rewrite Hbody, Hname, Haddr, Hitems.
Qed.

(** An empty customer name, with everything else wrong as well. *)
Lemma X5_empty_name_first :
  nullish (VObj [("customer_name", VStr ""); ("items", VArr [])]) = false
  ∧ ¬ nonempty_text
        (prop (VObj [("customer_name", VStr ""); ("items", VArr [])])
              "customer_name")
  ∧ serve no_faults
          (post_purchases
             (VObj [("customer_name", VStr ""); ("items", VArr [])]))
          (shop 5)
    = State (shop 5) false []
            [Response 400 (Error "Customer name is required")] [].
Proof.
  assert (¬ nonempty_text (VStr "")) as Hname.
  { by intros (s & [= <-] & Hs). }
  split; [reflexivity|]. split; [exact Hname|].
  apply (X5_first_failed_check_decides no_faults
           (VObj [("customer_name", VStr ""); ("items", VArr [])]) (shop 5));
    [reflexivity | exact Hname].
Defined.

(** *** The item routes *)

(** X6: for a body that is not [null], [POST /items] and [PUT /items/:id]
    let a request through exactly when its name is a non-empty text, its
    stock an integer of at least zero and its price a number of at least
    zero; otherwise the first of these that fails, in this order, decides
    the message. *)
Theorem X6_item_checks_exactly (body : value) :
  nullish body = false →
  (validate_item body = Valid ↔
     nonempty_text (prop body "name")
     ∧ nonneg_integer (prop body "stock")
     ∧ nonneg_number (prop body "price"))
  ∧ (¬ nonempty_text (prop body "name") →
     validate_item body
     = Rejected "Item name is required and must be a string")
  ∧ (nonempty_text (prop body "name") →
     ¬ nonneg_integer (prop body "stock") →
     validate_item body = Rejected "Stock must be a non-negative integer")
  ∧ (nonempty_text (prop body "name") →
     nonneg_integer (prop body "stock") →
     ¬ nonneg_number (prop body "price") →
     validate_item body = Rejected "Price must be a non-negative number").
Proof.
  intros Hbody. unfold validate_item. rewrite Hbody.
  destruct (negb (truthy (prop body "name")) || _) eqn:Hn.
  { assert (¬ nonempty_text (prop body "name")) as Hno
      by (rewrite <- check_text; congruence).
    split_and!; [split; [done | tauto] | done | tauto | tauto]. }
  apply check_text in Hn.
  destruct (negb (Number_isInteger (prop body "stock")) || _) eqn:Hs.
  { assert (¬ nonneg_integer (prop body "stock")) as Hno
      by (rewrite <- check_stock; congruence).
    split_and!; [split; [done | tauto] | tauto | done | tauto]. }
  apply check_stock in Hs.
  destruct (negb (String.eqb (typeof (prop body "price")) "number") || _)
    eqn:Hp.
  { assert (¬ nonneg_number (prop body "price")) as Hno
      by (rewrite <- check_price; congruence).
    split_and!; [split; [done | tauto] | tauto | tauto | done]. }
  apply check_price in Hp.
  split_and!; [split; [tauto | done] | tauto | tauto | tauto].
Qed.

(** An empty name is refused, even with a good stock and price. *)
Lemma X6_empty_name_refused :
  nullish (VObj [("name", VStr ""); ("stock", int 1); ("price", int 1)])
  = false
  ∧ validate_item
      (VObj [("name", VStr ""); ("stock", int 1); ("price", int 1)])
    = Rejected "Item name is required and must be a string".
Proof.
  split; [reflexivity|].
  apply (X6_item_checks_exactly
           (VObj [("name", VStr ""); ("stock", int 1); ("price", int 1)])
           eq_refl).
  by intros (s & [= <-] & Hs).
Defined.

Lemma serve_item_valid F (h : sync ()) s cb body d :
  (cb = item_inserted ∨ cb = item_updated) →
  h = match validate_item body with
      | Threw e => next e
      | Rejected msg => send (Response 400 (Error msg))
      | Valid => db_run s cb
      end →
  validate_item body = Valid →
  serve F h d
  = State (exec_with F s d).1 false [] (sends (call cb (exec_with F s d).2
                                                    false).2) [s].
Proof.
  intros Hcb -> ->. unfold serve. simpl. unfold work. simpl.
  replace (weight cb) with 0%nat by (by destruct Hcb as [-> | ->]).
  simpl. unfold step. simpl.
  destruct (exec_with F s d) as [d' res]. simpl.
  destruct Hcb as [-> | ->]; simpl.
  - by destruct (err res).
  - destruct (err res); [done|]. by destruct (changes res =? 0).
Qed.

Lemma next_item_id_fresh t j :
  is_Some (items t !! j) → j < next_item_id t.
Proof.
  intros [it Hit]. apply next_rowid_fresh.
  apply list_elem_of_fmap. exists (j, it). split; [done|].
  by apply elem_of_map_to_list.
Qed.

Lemma valid_item_fields body :
  validate_item body = Valid →
  prop body "name" = VStr (item_name (item_of body))
  ∧ prop body "price" = VNum (item_price (item_of body))
  ∧ Number_isInteger (prop body "stock") = true
  ∧ 0 ≤ item_stock (item_of body)
  ∧ number_nonneg (item_price (item_of body)).
Proof.
  intros Hvalid.
  destruct (validate_item_valid body Hvalid) as [Hstock Hprice].
  unfold validate_item in Hvalid. destruct (nullish body); [done|].
  destruct (negb (truthy (prop body "name")) || _) eqn:Hn; [done|].
  destruct (negb (Number_isInteger (prop body "stock")) || _) eqn:Hs; [done|].
  destruct (negb (String.eqb (typeof (prop body "price")) "number") || _)
    eqn:Hp; [done|].
  apply check_text in Hn as (s & Hname & _).
  apply check_stock in Hs as [Hint _].
  apply check_price in Hp as (n & Hn & _).
  unfold item_of. simpl. rewrite Hn in Hprice. rewrite Hname, Hn.
  by split_and!.
Qed.

(** X7: a request to [POST /items] that passes the checks, with no storage
    failure, is answered 201 with an identifier larger than that of every
    item in the table; the row stored under it holds the name, stock and
    price of the request, and nothing else in the store changes. *)
Theorem X7_item_created (body : value) (d : database) :
  validate_item body = Valid →
  let st := serve no_faults (post_items body) d in
  let id := next_item_id (live d) in
  sent st = [Response 201 (Created id)]
  ∧ (∀ j, is_Some (items (live d) !! j) → j < id)
  ∧ items (live d) !! id = None
  ∧ items (live (db st)) = <[id := item_of body]> (items (live d))
  ∧ prop body "name" = VStr (item_name (item_of body))
  ∧ prop body "price" = VNum (item_price (item_of body))
  ∧ purchases (live (db st)) = purchases (live d)
  ∧ purchase_items (live (db st)) = purchase_items (live d)
  ∧ saved (db st) = saved d.
Proof.
  intros Hvalid st id. subst st.
  rewrite (serve_item_valid no_faults (post_items body) _ item_inserted body d
             (or_introl eq_refl) eq_refl Hvalid).
  destruct (valid_item_fields body Hvalid) as (Hname & Hprice & _).
  simpl. split_and!; try done.
  - intros j. apply next_item_id_fresh.
  - destruct (items (live d) !! id) eqn:Hid; [|done].
    pose proof (next_item_id_fresh (live d) id) as Hlt.
    rewrite Hid in Hlt. specialize (Hlt ltac:(eauto)). unfold id in Hlt. lia.
Qed.

Lemma X7_ink_created :
  validate_item (new_item 4 2) = Valid
  ∧ sent (serve no_faults (post_items (new_item 4 2)) (shop 5))
    = [Response 201 (Created 2)]
  ∧ items (live (db (serve no_faults (post_items (new_item 4 2)) (shop 5))))
      !! 2
    = Some (Item "ink" 4 (Finite 2)).
Proof.
  pose proof (X7_item_created (new_item 4 2) (shop 5) eq_refl) as H.
  cbv zeta in H. destruct H as (Hsent & _ & _ & Hitems & _).
  split; [reflexivity|]. split; [exact Hsent|].
  rewrite Hitems. reflexivity.
Defined.

(** X8: a request to [PUT /items/:id] that passes the checks, with no
    storage failure: when the row exists it is replaced by the name, stock
    and price of the request and the answer is 200 with [updated: 1]; when
    it does not the answer is 404 and the store is as it was.  The other
    rows and tables are never touched. *)
Theorem X8_item_updated (id : Z) (body : value) (d : database) :
  validate_item body = Valid →
  let st := serve no_faults (put_items id body) d in
  (is_Some (items (live d) !! id) →
   sent st = [Response 200 (Updated 1)]
   ∧ items (live (db st)) = <[id := item_of body]> (items (live d)))
  ∧ (items (live d) !! id = None →
     sent st = [Response 404 (Error "Item not found")]
     ∧ db st = d)
  ∧ (∀ j, j ≠ id → items (live (db st)) !! j = items (live d) !! j)
  ∧ purchases (live (db st)) = purchases (live d)
  ∧ purchase_items (live (db st)) = purchase_items (live d)
  ∧ saved (db st) = saved d.
Proof.
  intros Hvalid st. subst st.
  rewrite (serve_item_valid no_faults (put_items id body) _ item_updated body d
             (or_intror eq_refl) eq_refl Hvalid).
  unfold exec_with, no_faults. simpl.
  destruct (items (live d) !! id) as [it|] eqn:Hid; simpl.
  - split_and!; try done.
    intros j Hj. by rewrite lookup_insert_ne.
  - split_and!; try done; try (by intros [? [=]]).
    intros _. split; [done|]. by destruct d.
Qed.

Lemma X8_pen_restocked :
  validate_item (new_item 9 2) = Valid
  ∧ is_Some (items (live (shop 5)) !! 1)
  ∧ sent (serve no_faults (put_items 1 (new_item 9 2)) (shop 5))
    = [Response 200 (Updated 1)]
  ∧ items (live (db (serve no_faults (put_items 1 (new_item 9 2)) (shop 5))))
      !! 1
    = Some (Item "ink" 9 (Finite 2)).
Proof.
  assert (is_Some (items (live (shop 5)) !! 1)) as Hrow by (eexists; reflexivity).
  pose proof (X8_item_updated 1 (new_item 9 2) (shop 5) eq_refl) as H.
  cbv zeta in H. destruct H as (Hhit & _).
  destruct (Hhit Hrow) as [Hsent Hitems].
  split; [reflexivity|]. split; [exact Hrow|]. split; [exact Hsent|].
  rewrite Hitems. reflexivity.
Defined.

(** X9: when the storage layer fails the statement of [POST /items] or
    [PUT /items/:id], the answer is the 500 of the error handler, with
    nothing of the error in it, and the store is as it was. *)
Theorem X9_item_storage_failure (F : faults) (id : Z) (body : value)
    (d : database) (e : string) :
  validate_item body = Valid →
  F (INSERT_INTO_items (item_name (item_of body)) (item_stock (item_of body))
                       (item_price (item_of body))) = Some e →
  F (UPDATE_items (item_name (item_of body)) (item_stock (item_of body))
                  (item_price (item_of body)) id) = Some e →
  serve F (post_items body) d
  = State d false [] [server_error]
          [INSERT_INTO_items (item_name (item_of body))
             (item_stock (item_of body)) (item_price (item_of body))]
  ∧ serve F (put_items id body) d
    = State d false [] [server_error]
            [UPDATE_items (item_name (item_of body))
               (item_stock (item_of body)) (item_price (item_of body)) id].
Proof.
  intros Hvalid Hpost Hput. split.
  - rewrite (serve_item_valid F (post_items body) _ item_inserted body d
               (or_introl eq_refl) eq_refl Hvalid).
    unfold exec_with. simpl in *. by rewrite Hpost.
  - rewrite (serve_item_valid F (put_items id body) _ item_updated body d
               (or_intror eq_refl) eq_refl Hvalid).
    unfold exec_with. simpl in *. by rewrite Hput.
Qed.

Lemma X9_disk_full :
  validate_item (new_item 4 2) = Valid
  ∧ serve (λ _, Some "database or disk is full") (post_items (new_item 4 2))
          (shop 5)
    = State (shop 5) false [] [server_error]
            [INSERT_INTO_items "ink" 4 (Finite 2)].
Proof.
  split; [reflexivity|].
  exact (proj1 (X9_item_storage_failure (λ _, Some "database or disk is full")
                  1 (new_item 4 2) (shop 5) "database or disk is full"
                  eq_refl eq_refl eq_refl)).
Defined.

(** *** Stock and price stay at zero or more *)

Lemma items_ok_insert its id it :
  items_ok its → item_ok it → items_ok (<[id := it]> its).
Proof.
  intros Hok Hit j it'. rewrite lookup_insert.
  case_decide; [|apply Hok]. by intros [= <-].
Qed.

Lemma exec_tables_ok s t :
  sound_stmt s → items_ok (items t) → items_ok (items (exec_tables s t).1).
Proof.
  intros Hs Hok. destruct s; simpl in *; try done.
  - by apply items_ok_insert.
  - destruct (items t !! id); [|done]. by apply items_ok_insert.
  - destruct (update_stock_cases (items t) id minus at_least)
      as [(it & Hit & Hle & ->)|[_ ->]]; [|done].
    simpl. apply items_ok_insert; [done|].
    destruct (Hok id it Hit) as [Hstock Hprice].
    split; simpl; [apply subtract_nonneg; lia | done].
Qed.

Lemma exec_ok F s d : sound_stmt s → db_ok d → db_ok (exec_with F s d).1.
Proof.
  intros Hs [Hlive Hsaved]. unfold exec_with.
  destruct (F s); [done|].
  assert (db_ok (let '(t, r) := exec_tables s (live d) in
                 (Database t (saved d), r)).1) as Hdata.
  { pose proof (exec_tables_ok s (live d) Hs Hlive) as Ht.
    destruct (exec_tables s (live d)) as [t r]. by split. }
  destruct s; try exact Hdata; simpl; destruct (saved d) eqn:Hsv;
    try done; split; simpl; try done; try naive_solver.
Qed.

Lemma call_sound cb res e :
  Forall (λ p, sound_stmt p.1) (runs (call cb res e).2).
Proof.
  destruct cb as [| | |its| |pid]; simpl.
  - destruct (err res); constructor.
  - destruct (err res); constructor.
  - destruct (err res); [constructor|]. destruct (changes res =? 0); constructor.
  - destruct (err res) as [er|] eqn:Herr.
    + erewrite on_purchase_inserted_err by done. by repeat constructor.
    + rewrite on_purchase_inserted_ok by done. simpl.
      rewrite runs_app, runs_lines. apply Forall_app. split.
      * apply Forall_bind, Forall_forall. intros item _.
        repeat constructor. simpl. lia.
      * by repeat constructor.
  - destruct (_ || _); constructor.
  - destruct (err res); by repeat constructor.
Qed.

Lemma recover_ok d : db_ok d → db_ok (recover d).
Proof.
  intros Hd. unfold recover.
  destruct (saved d) as [t|] eqn:Hsv; [|done].
  destruct Hd as [_ Hsaved]. split; simpl; [by apply Hsaved | done].
Qed.

Lemma step_ok F st :
  db_ok (db st) → Forall (λ p, sound_stmt p.1) (queue st) →
  db_ok (db (step F st)) ∧ Forall (λ p, sound_stmt p.1) (queue (step F st)).
Proof.
  intros Hdb Hq. unfold step.
  destruct (queue st) as [|[s cb] rest] eqn:Hqueue; [by rewrite Hqueue|].
  apply Forall_cons in Hq as [Hs Hrest].
  pose proof (exec_ok F s (db st) Hs Hdb) as Hd.
  destruct (exec_with F s (db st)) as [d res].
  pose proof (call_sound cb res (stockError st)) as Hcall.
  destruct (call cb res (stockError st)) as [[[] e] acts]. simpl in *.
  destruct (crashes acts); simpl.
  - split; [by apply recover_ok | constructor].
  - split; [done|]. by apply Forall_app.
Qed.

Lemma turns_ok n F : ∀ st,
  db_ok (db st) → Forall (λ p, sound_stmt p.1) (queue st) →
  db_ok (db (turns n F st)).
Proof.
  induction n as [|n IH]; intros st Hdb Hq; [done|].
  rewrite turns_S. destruct (step_ok F st Hdb Hq). by apply IH.
Qed.

Lemma serve_ok F (h : sync ()) d :
  Forall (λ p, sound_stmt p.1) (runs (h false).2) →
  db_ok d → db_ok (db (serve F h d)).
Proof.
  intros Hh Hd. unfold serve. destruct (h false) as [[[] e] acts].
  by apply turns_ok.
Qed.

Lemma item_handler_sound s cb body :
  (validate_item body = Valid → sound_stmt s) →
  Forall (λ p, sound_stmt p.1)
    (runs (match validate_item body with
           | Threw e => next e
           | Rejected msg => send (Response 400 (Error msg))
           | Valid => db_run s cb
           end false).2).
Proof.
  intros Hs. destruct (validate_item body); simpl; repeat constructor.
  by apply Hs.
Qed.

Lemma delete_ok fault id d : db_ok d → db_ok (Routes.delete_items fault id d).1.
Proof.
  intros [Hlive Hsaved]. unfold Routes.delete_items.
  destruct fault; [done|]. unfold Routes.delete_from_items.
  destruct (items (live d) !! id) eqn:Hid; simpl; [|done].
  split; [|done]. simpl. intros j it. rewrite lookup_delete.
  case_decide; [done|]. apply Hlive.
Qed.

Lemma after_ok d r : db_ok d → db_ok (after d r).
Proof.
  intros Hd. destruct r as [F body|F id body|fault id|F body]; simpl.
  - apply serve_ok; [|done]. apply item_handler_sound.
    intros Hvalid. by apply validate_item_valid.
  - apply serve_ok; [|done]. apply item_handler_sound.
    intros Hvalid. by apply validate_item_valid.
  - by apply delete_ok.
  - apply serve_ok; [|done]. unfold post_purchases.
    destruct (validate_purchase body); by repeat constructor.
Qed.

(** X10: starting from a store in which every item has a stock and a
    price of at least zero, every sequence of requests to the routes that
    write ([POST /items], [PUT /items/:id], [DELETE /items/:id],
    [POST /purchases]), with any bodies and any storage failures, leaves
    such a store. *)
Theorem X10_stock_and_price_floor (d : database) (rs : list request) :
  db_ok d → db_ok (foldl after d rs).
Proof.
  revert d. induction rs as [|r rs IH]; intros d Hd; [done|].
  simpl. by apply IH, after_ok.
Qed.

Lemma X10_a_busy_day :
  db_ok (shop 5)
  ∧ db_ok (foldl after (shop 5)
             [PostPurchase no_faults (order [line 1 3; line 1 3]);
              PutItem no_faults 1 (new_item (-2) 1);
              PostItem (commit_fails "busy") (new_item 0 0);
              DeleteItem None 1;
              PostPurchase (commit_fails "busy") (order [line 2 1])]).
Proof.
  assert (db_ok (shop 5)) as Hok.
  { split; [|done]. intros j it. simpl. rewrite lookup_singleton.
    case_decide; [|done]. intros [= <-]. split; simpl; [lia|].
    unfold Qle. simpl. lia. }
  split; [exact Hok|]. by apply X10_stock_and_price_floor.
Defined.

(** *** Items come and go *)

Lemma id_le_trans : Transitive Routes.id_le.
Proof. intros a b c. unfold Routes.id_le. lia. Qed.

Lemma id_le_total : Total Routes.id_le.
Proof. intros a b. unfold Routes.id_le. lia. Qed.

Lemma select_items_sorted t :
  Sorted.StronglySorted Routes.id_le (Routes.select_items t).
Proof.
  apply (@sorting.StronglySorted_merge_sort _ Routes.id_le _
           id_le_trans id_le_total).
Qed.

Lemma select_items_perm t : Routes.select_items t ≡ₚ map_to_list (items t).
Proof. apply sorting.merge_sort_Permutation. Qed.

Lemma select_items_elem t j it :
  (j, it) ∈ Routes.select_items t ↔ items t !! j = Some it.
Proof. by rewrite select_items_perm, elem_of_map_to_list. Qed.

(** X11: [GET /items] lists every item of the table once, by ascending
    identifier; after a [POST /items] that was answered 201 it lists the
    rows it listed before, followed by the new item under the identifier
    of the answer. *)
Theorem X11_created_item_is_listed (body : value) (d : database) :
  validate_item body = Valid →
  let st := serve no_faults (post_items body) d in
  (∃ rows, Routes.get_items None d = Routes.ItemRows rows
           ∧ Sorted.StronglySorted Z.lt rows.*1
           ∧ ∀ j it, (j, it) ∈ rows ↔ items (live d) !! j = Some it)
  ∧ sent st = [Response 201 (Created (next_item_id (live d)))]
  ∧ Routes.get_items None (db st)
    = Routes.ItemRows (Routes.select_items (live d)
                       ++ [(next_item_id (live d), item_of body)]).
Proof.
  intros Hvalid st. subst st. split_and!.
  - eexists. split; [done|]. split; [|apply select_items_elem].
    pose proof (select_items_sorted (live d)) as Hsorted.
    pose proof (NoDup_fst_map_to_list (items (live d))) as Hnodup.
    rewrite <- select_items_perm in Hnodup.
    induction Hsorted as [|[j it] rows Hrows IH Hall]; [constructor|].
    rewrite fmap_cons in *. apply NoDup_cons in Hnodup as [Hj Hnodup].
    constructor; [by apply IH|].
    apply Forall_fmap, Forall_forall. intros [j' it'] Hin.
    rewrite Forall_forall in Hall. specialize (Hall _ Hin).
    unfold Routes.id_le in Hall. simpl in *.
    assert (j ≠ j'); [|lia].
    intros ->. apply Hj, list_elem_of_fmap. by exists (j', it').
  - rewrite (serve_item_valid no_faults (post_items body) _ item_inserted
               body d (or_introl eq_refl) eq_refl Hvalid). done.
  - rewrite (serve_item_valid no_faults (post_items body) _ item_inserted
               body d (or_introl eq_refl) eq_refl Hvalid).
    unfold Routes.get_items, Routes.on_items. f_equal. simpl.
    set (id := next_rowid _ _). set (t' := Tables _ _ _ _ _ _).
    assert (items (live d) !! id = None) as Hnew.
    { destruct (items (live d) !! id) eqn:Hid; [|done].
      pose proof (next_item_id_fresh (live d) id) as Hlt.
      rewrite Hid in Hlt. specialize (Hlt ltac:(eauto)).
      unfold next_item_id in Hlt. fold id in Hlt. lia. }
    match goal with |- _ = ?r => set (rows := r) end.
    assert (Routes.select_items t' ≡ₚ rows) as Hperm.
    { unfold rows. rewrite !select_items_perm. unfold t'. simpl.
      rewrite map_to_list_insert by done.
      by rewrite Permutation_cons_append. }
    apply (sorting.StronglySorted_unique_strong Routes.id_le);
      [|apply select_items_sorted| |done].
    + intros [j1 it1] [j2 it2] Hin1 Hin2 Hle1 Hle2.
      unfold Routes.id_le in Hle1, Hle2. simpl in Hle1, Hle2.
      assert (j1 = j2) as -> by lia. f_equal.
      rewrite <- Hperm in Hin2.
      apply select_items_elem in Hin1, Hin2. congruence.
    + apply sorting.StronglySorted_app_2;
        [|apply select_items_sorted | repeat constructor].
      intros [j it] x Hin ->%list_elem_of_singleton.
      unfold Routes.id_le. simpl. apply select_items_elem in Hin.
      pose proof (next_item_id_fresh (live d) j) as Hlt.
      rewrite Hin in Hlt. specialize (Hlt ltac:(eauto)). lia.
Qed.

Lemma X11_ink_is_listed :
  validate_item (new_item 4 2) = Valid
  ∧ Routes.get_items None
      (db (serve no_faults (post_items (new_item 4 2)) (shop 5)))
    = Routes.ItemRows [(1, Item "pen" 5 (Finite 5));
                       (2, Item "ink" 4 (Finite 2))].
Proof.
  pose proof (X11_created_item_is_listed (new_item 4 2) (shop 5) eq_refl) as H.
  cbv zeta in H. destruct H as (_ & _ & Hrows).
  split; [reflexivity | exact Hrows].
Defined.

(** X12: identifiers of items are not used again.  When an item is
    created, deleted and another one created, with no storage failure,
    the delete is answered 204 and leaves the item table as it was before
    the first creation, and the second item gets a larger identifier than
    the first. *)
Theorem X12_item_ids_not_reused (b1 b2 : value) (d : database) :
  validate_item b1 = Valid →
  validate_item b2 = Valid →
  let id1 := next_item_id (live d) in
  let st1 := serve no_faults (post_items b1) d in
  let gone := Routes.delete_items None id1 (db st1) in
  let st2 := serve no_faults (post_items b2) gone.1 in
  sent st1 = [Response 201 (Created id1)]
  ∧ gone.2 = Routes.NoContent
  ∧ items (live gone.1) = items (live d)
  ∧ ∃ id2, sent st2 = [Response 201 (Created id2)] ∧ id1 < id2.
Proof.
  intros Hv1 Hv2 id1 st1 gone st2. subst st1 gone st2.
  rewrite (serve_item_valid no_faults (post_items b1) _ item_inserted
             b1 d (or_introl eq_refl) eq_refl Hv1).
  rewrite (serve_item_valid no_faults (post_items b2) _ item_inserted
             b2 _ (or_introl eq_refl) eq_refl Hv2).
  simpl. fold (next_item_id (live d)). fold id1.
  unfold Routes.delete_items, Routes.delete_from_items. simpl.
  rewrite lookup_insert_eq. simpl.
  assert (items (live d) !! id1 = None) as Hnew.
  { destruct (items (live d) !! id1) eqn:Hid; [|done].
    pose proof (next_item_id_fresh (live d) id1) as Hlt.
    rewrite Hid in Hlt. specialize (Hlt ltac:(eauto)). unfold id1 in Hlt. lia. }
  split_and!; try done.
  - rewrite delete_insert_eq. by apply delete_id.
  - eexists. split; [done|]. apply next_rowid_above.
Qed.

Lemma X12_ink_twice :
  validate_item (new_item 4 2) = Valid
  ∧ ∃ id2,
      sent (serve no_faults (post_items (new_item 4 2))
              (Routes.delete_items None 2
                 (db (serve no_faults (post_items (new_item 4 2))
                            (shop 5)))).1)
      = [Response 201 (Created id2)]
      ∧ 2 < id2.
Proof.
  pose proof (X12_item_ids_not_reused (new_item 4 2) (new_item 4 2) (shop 5)
                eq_refl eq_refl) as H.
  cbv zeta in H. destruct H as (_ & _ & _ & Hid).
  split; [reflexivity | exact Hid].
Defined.

(** *** The purchase history *)

Lemma get_snoc k k' g o :
  Routes.get k (o ++ [(k', g)])
  = match Routes.get k o with
    | Some g0 => Some g0
    | None => if k =? k' then Some g else None
    end.
Proof.
  induction o as [|[k0 g0] o IH]; simpl; [done|].
  by destruct (k =? k0).
Qed.

Lemma get_push k k' x o :
  Routes.get k (Routes.push k' x o)
  = if k =? k'
    then (λ g, Routes.Group (Routes.g_id g) (Routes.g_customer_name g)
                 (Routes.g_date g) (Routes.g_items g ++ [x]))
         <$> Routes.get k o
    else Routes.get k o.
Proof.
  induction o as [|[k0 g0] o IH]; simpl; [by destruct (k =? k')|].
  destruct (k' =? k0) eqn:Hk'; simpl.
  - apply Z.eqb_eq in Hk' as ->. by destruct (k =? k0).
  - rewrite IH. destruct (k =? k0) eqn:Hk; [|done].
    apply Z.eqb_eq in Hk as ->. rewrite Z.eqb_sym in Hk'. by rewrite Hk'.
Qed.

Lemma keys_push k x o : (Routes.push k x o).*1 = o.*1.
Proof.
  induction o as [|[k0 g0] o IH]; [done|].
  simpl Routes.push. destruct (k =? k0); rewrite !fmap_cons; [done|].
  by rewrite IH.
Qed.

Lemma get_None k o : Routes.get k o = None ↔ k ∉ o.*1.
Proof.
  induction o as [|[k0 g0] o IH]; simpl.
  - split; [intros _ ?%elem_of_nil; done | done].
  - rewrite not_elem_of_cons. destruct (Z.eqb_spec k k0) as [->|Hne].
    + split; [done | by intros [? _]].
    + rewrite IH. tauto.
Qed.

Lemma get_elem k g o : Routes.get k o = Some g → (k, g) ∈ o.
Proof.
  induction o as [|[k0 g0] o IH]; simpl; [done|].
  destruct (Z.eqb_spec k k0) as [->|Hne].
  - intros [= ->]. by left.
  - intros Hget. right. by apply IH.
Qed.

Lemma elem_get k g o : NoDup o.*1 → (k, g) ∈ o → Routes.get k o = Some g.
Proof.
  induction o as [|[k0 g0] o IH]; simpl; [by intros _ ?%elem_of_nil|].
  rewrite NoDup_cons. intros [Hk0 Hnodup] Hin.
  apply elem_of_cons in Hin as [[= -> ->]|Hin].
  - by rewrite Z.eqb_refl.
  - destruct (Z.eqb_spec k k0) as [->|Hne]; [|by apply IH].
    destruct Hk0. apply list_elem_of_fmap. by exists (k0, g).
Qed.

Lemma rows_of_snoc k rows r :
  rows_of k (rows ++ [r])
  = rows_of k rows ++ (if decide (Routes.h_purchase_id r = k) then [r] else []).
Proof.
  unfold rows_of. rewrite filter_app. by f_equal.
Qed.

Lemma group_rows_snoc rows r :
  Routes.group_rows (rows ++ [r])
  = Routes.add_row (Routes.group_rows rows) r.
Proof. unfold Routes.group_rows. by rewrite foldl_app. Qed.

(** The object after [forEach]: under each key, the group of the rows
    with that key. *)
Lemma group_rows_get rows :
  NoDup (Routes.group_rows rows).*1
  ∧ ∀ k, Routes.get k (Routes.group_rows rows) = group_of k rows.
Proof.
  induction rows as [|r rows [Hnodup IH]] using rev_ind.
  { split; [constructor | done]. }
  rewrite group_rows_snoc. unfold Routes.add_row.
  set (p := Routes.h_purchase_id r). set (o := Routes.group_rows rows) in *.
  split.
  - rewrite keys_push. destruct (Routes.get p o) eqn:Hget; [done|].
    rewrite fmap_app. simpl. apply NoDup_app. split_and!; [done| |].
    + intros k Hk ->%list_elem_of_singleton. by apply get_None in Hget.
    + apply NoDup_singleton.
  - intros k. rewrite get_push. unfold group_of. rewrite rows_of_snoc.
    fold p. specialize (IH k). unfold group_of in IH.
    destruct (Z.eqb_spec k p) as [->|Hne].
    + rewrite decide_True by done.
      destruct (Routes.get p o) as [g|] eqn:Hget.
      * rewrite Hget. simpl. destruct (rows_of p rows) as [|r0 rest]; [done|].
        injection IH as ->. simpl. by rewrite fmap_app.
      * rewrite get_snoc, Hget, Z.eqb_refl. simpl.
        by destruct (rows_of p rows).
    + rewrite decide_False by done. rewrite app_nil_r.
      destruct (Routes.get p o) as [g|] eqn:Hget; [done|].
      rewrite get_snoc, IH.
      destruct (Z.eqb_spec k p); [done|].
      by destruct (rows_of k rows).
Qed.

Lemma group_of_Some k g rows :
  group_of k rows = Some g →
  Routes.g_id g = k
  ∧ Routes.g_items g = sold_of <$> rows_of k rows
  ∧ ∃ r, head (rows_of k rows) = Some r
         ∧ Routes.g_customer_name g = Routes.h_customer_name r
         ∧ Routes.g_date g = Routes.h_date r.
Proof.
  unfold group_of. destruct (rows_of k rows) as [|r rest]; [done|].
  intros [= <-]. simpl. split_and!; [done..|]. by exists r.
Qed.

Lemma key_le_trans : Transitive Routes.key_le.
Proof. intros a b c. unfold Routes.key_le. lia. Qed.

Lemma key_le_total : Total Routes.key_le.
Proof. intros a b. unfold Routes.key_le. lia. Qed.

Lemma Object_values_perm o : ∃ l, Routes.Object_values o = l.*2 ∧ l ≡ₚ o.
Proof.
  exists (sorting.merge_sort Routes.key_le
            (filter (λ p, Routes.is_index p.1 = true) o)
          ++ filter (λ p, Routes.is_index p.1 ≠ true) o).
  split; [done|].
  rewrite sorting.merge_sort_Permutation.
  induction o as [|[k g] o IH]; [done|].
  rewrite !filter_cons. simpl.
  destruct (decide (Routes.is_index k = true)) as [Hk|Hk].
  - rewrite decide_False by tauto. by apply Permutation_skip.
  - rewrite decide_True by done. rewrite <- Permutation_middle.
    by apply Permutation_skip.
Qed.

Lemma sorted_keys_strict (l : list (Z * Routes.group)) :
  Sorted.StronglySorted Routes.key_le l → NoDup l.*1 →
  Sorted.StronglySorted Z.lt l.*1.
Proof.
  induction 1 as [|[k g] l Hl IH Hall]; [constructor|].
  rewrite fmap_cons, NoDup_cons. intros [Hk Hnodup].
  constructor; [by apply IH|].
  apply Forall_fmap, Forall_forall. intros [k' g'] Hin.
  rewrite Forall_forall in Hall. specialize (Hall _ Hin).
  unfold Routes.key_le in Hall. simpl in *.
  assert (k ≠ k'); [|lia].
  intros ->. apply Hk, list_elem_of_fmap. by exists (k', g').
Qed.

Lemma no_other_keys (o : list (Z * Routes.group)) :
  Forall (λ p : Z * Routes.group, Routes.is_index p.1 = true) o →
  filter (λ p : Z * Routes.group, Routes.is_index p.1 ≠ true) o = [].
Proof.
  induction 1 as [|[k g] o Hk _ IH]; [done|].
  rewrite filter_cons. simpl in *. by rewrite decide_False by tauto.
Qed.

Lemma NoDup_fmap_fst_filter (P : Z * Routes.group → Prop)
    `{∀ x, Decision (P x)} (o : list (Z * Routes.group)) :
  NoDup o.*1 → NoDup (filter P o).*1.
Proof.
  induction o as [|[k g] o IH]; [done|].
  rewrite fmap_cons, NoDup_cons. intros [Hk Hnodup].
  rewrite filter_cons. case_decide; [|by apply IH].
  rewrite fmap_cons, NoDup_cons. split; [|by apply IH].
  intros ([k' g'] & Heq & [_ Hin]%list_elem_of_filter)%list_elem_of_fmap.
  simpl in Heq. subst k'. apply Hk, list_elem_of_fmap. by exists (k, g').
Qed.

(** X13: the answer of [GET /purchases] to a list of rows, in whatever
    order the rows come: one group per purchase among the rows; each
    group carries the customer name and date of the first row of its
    purchase and one entry per row of it, in the order of the rows; and
    when the purchase identifiers are array indices (whole numbers below
    2^32 - 1) the groups are in ascending order of identifier, the
    [ORDER BY purchases.id DESC] of the statement notwithstanding. *)
Theorem X13_history_groups (rows : list Routes.history_row) :
  let out := Routes.Object_values (Routes.group_rows rows) in
  Routes.on_history None rows = Routes.History out
  ∧ NoDup (Routes.g_id <$> out)
  ∧ (∀ k, k ∈ Routes.g_id <$> out ↔ k ∈ Routes.h_purchase_id <$> rows)
  ∧ (∀ g, g ∈ out →
       Routes.g_items g = sold_of <$> rows_of (Routes.g_id g) rows
       ∧ ∃ r, head (rows_of (Routes.g_id g) rows) = Some r
              ∧ Routes.g_customer_name g = Routes.h_customer_name r
              ∧ Routes.g_date g = Routes.h_date r)
  ∧ (Forall (λ r, Routes.is_index (Routes.h_purchase_id r) = true) rows →
     Sorted.StronglySorted Z.lt (Routes.g_id <$> out)).
Proof.
  intros out. subst out.
  destruct (group_rows_get rows) as [Hnodup Hget].
  set (o := Routes.group_rows rows) in *.
  assert (∀ k g, (k, g) ∈ o → group_of k rows = Some g) as Hentry.
  { intros k g Hin. rewrite <- Hget. by apply elem_get. }
  assert (∀ l, l ⊆ o → Routes.g_id <$> l.*2 = l.*1) as Hids.
  { induction l as [|[k g] l IH]; intros Hsub; [done|].
    rewrite !fmap_cons. simpl. f_equal.
    - apply (group_of_Some k g rows), Hentry, Hsub. by left.
    - apply IH. intros x Hx. apply Hsub. by right. }
  destruct (Object_values_perm o) as (l & Hout & Hperm).
  assert (l ⊆ o) as Hsub by (intros x; by rewrite Hperm).
  split_and!.
  - done.
  - rewrite Hout, (Hids l Hsub), Hperm. done.
  - intros k. rewrite Hout, (Hids l Hsub), Hperm.
    split.
    + intros Hk. destruct (Routes.get k o) as [g|] eqn:Hg.
      * rewrite Hget in Hg. unfold group_of in Hg.
        destruct (rows_of k rows) as [|r rest] eqn:Hrows; [done|].
        assert (r ∈ rows_of k rows) as Hr by (rewrite Hrows; by left).
        apply list_elem_of_filter in Hr as [<- Hr].
        by apply list_elem_of_fmap_2.
      * by apply get_None in Hg.
    + intros (r & -> & Hr)%list_elem_of_fmap.
      destruct (Routes.get (Routes.h_purchase_id r) o) as [g|] eqn:Hg.
      * apply get_elem in Hg. apply list_elem_of_fmap.
        by exists (Routes.h_purchase_id r, g).
      * rewrite Hget in Hg. unfold group_of in Hg.
        assert (r ∈ rows_of (Routes.h_purchase_id r) rows) as Hin
          by (by apply list_elem_of_filter).
        destruct (rows_of _ rows); [by apply elem_of_nil in Hin | done].
  - intros g. rewrite Hout. intros ([k g'] & -> & Hin)%list_elem_of_fmap.
    simpl. apply Hsub, Hentry in Hin.
    destruct (group_of_Some k g' rows Hin) as (-> & Hitems & Hhead). done.
  - intros Hindex. unfold Routes.Object_values.
    assert (Forall (λ p : Z * Routes.group, Routes.is_index p.1 = true) o)
      as Hall.
    { apply Forall_forall. intros [k g] Hin. simpl.
      apply Hentry in Hin. unfold group_of in Hin.
      destruct (rows_of k rows) as [|r rest] eqn:Hrows; [done|].
      assert (r ∈ rows_of k rows) as Hr by (rewrite Hrows; by left).
      apply list_elem_of_filter in Hr as [<- Hr].
      rewrite Forall_forall in Hindex. by apply Hindex. }
    rewrite (no_other_keys o Hall), app_nil_r.
    set (l' := sorting.merge_sort _ _).
    assert (l' ≡ₚ filter (λ p, Routes.is_index p.1 = true) o) as Hperm'
      by apply sorting.merge_sort_Permutation.
    assert (l' ⊆ o) as Hsub'.
    { intros x. rewrite Hperm'. by intros [_ ?]%list_elem_of_filter. }
    rewrite (Hids l' Hsub'). apply sorted_keys_strict.
    + apply (@sorting.StronglySorted_merge_sort _ Routes.key_le _
               key_le_trans key_le_total).
    + rewrite Hperm'. apply (NoDup_fmap_fst_filter _ o Hnodup).
Qed.

Lemma X13_newest_first_comes_out_oldest_first :
  Forall (λ r, Routes.is_index (Routes.h_purchase_id r) = true)
         [Routes.HistoryRow 2 "Bob" "d2" "pen" (Finite 5) 1;
          Routes.HistoryRow 1 "Ada" "d1" "pen" (Finite 5) 3;
          Routes.HistoryRow 1 "Ada" "d1" "ink" (Finite 2) 1]
  ∧ Sorted.StronglySorted Z.lt
      (Routes.g_id <$>
         Routes.Object_values
           (Routes.group_rows
              [Routes.HistoryRow 2 "Bob" "d2" "pen" (Finite 5) 1;
               Routes.HistoryRow 1 "Ada" "d1" "pen" (Finite 5) 3;
               Routes.HistoryRow 1 "Ada" "d1" "ink" (Finite 2) 1])).
Proof.
  assert (Forall (λ r, Routes.is_index (Routes.h_purchase_id r) = true)
            [Routes.HistoryRow 2 "Bob" "d2" "pen" (Finite 5) 1;
             Routes.HistoryRow 1 "Ada" "d1" "pen" (Finite 5) 3;
             Routes.HistoryRow 1 "Ada" "d1" "ink" (Finite 2) 1]) as Hindex.
  { repeat constructor. }
  split; [exact Hindex|].
  pose proof (X13_history_groups
                [Routes.HistoryRow 2 "Bob" "d2" "pen" (Finite 5) 1;
                 Routes.HistoryRow 1 "Ada" "d1" "pen" (Finite 5) 3;
                 Routes.HistoryRow 1 "Ada" "d1" "ink" (Finite 2) 1]) as H.
  cbv zeta in H. destruct H as (_ & _ & _ & _ & Hsorted).
  exact (Hsorted Hindex).
Defined.

Lemma values_elem rows g :
  g ∈ Routes.Object_values (Routes.group_rows rows)
  ↔ ∃ k, group_of k rows = Some g.
Proof.
  destruct (group_rows_get rows) as [Hnodup Hget].
  destruct (Object_values_perm (Routes.group_rows rows))
    as (l & -> & Hperm).
  rewrite list_elem_of_fmap. split.
  - intros ([k g'] & -> & Hin). exists k. rewrite <- Hget.
    apply elem_get; [done|]. by rewrite <- Hperm.
  - intros [k Hk]. rewrite <- Hget in Hk. apply get_elem in Hk.
    exists (k, g). split; [done|]. by rewrite Hperm.
Qed.

Lemma group_of_is_Some k rows :
  is_Some (group_of k rows) ↔ k ∈ Routes.h_purchase_id <$> rows.
Proof.
  unfold group_of. rewrite list_elem_of_fmap. split.
  - destruct (rows_of k rows) as [|r rest] eqn:Hrows; [by intros [? ?]|].
    intros _. assert (r ∈ rows_of k rows) as Hr by (rewrite Hrows; by left).
    apply list_elem_of_filter in Hr as [<- Hr]. by exists r.
  - intros (r & -> & Hr).
    assert (r ∈ rows_of (Routes.h_purchase_id r) rows) as Hin
      by (by apply list_elem_of_filter).
    destruct (rows_of _ rows); [by apply elem_of_nil in Hin | eauto].
Qed.

Section Join.
Variable date_of : Z → string.

Lemma joined_elem t r :
  r ∈ Routes.joined date_of t ↔
  ∃ p li it,
    p ∈ purchases t ∧ li ∈ purchase_items t
    ∧ pi_purchase_id li = p_id p
    ∧ items t !! pi_item_id li = Some it
    ∧ r = Routes.HistoryRow (p_id p) (p_customer_name p) (date_of (p_id p))
                            (item_name it) (item_price it) (pi_quantity li).
Proof.
  unfold Routes.joined. rewrite list_elem_of_bind. split.
  - intros (p & Hr & Hp). rewrite sorting.merge_sort_Permutation in Hp.
    apply list_elem_of_bind in Hr as (li & Hr & Hli).
    case_decide as Hid; [|by apply elem_of_nil in Hr].
    destruct (items t !! pi_item_id li) as [it|] eqn:Hit;
      [|by apply elem_of_nil in Hr].
    apply list_elem_of_singleton in Hr. by exists p, li, it.
  - intros (p & li & it & Hp & Hli & Hid & Hit & ->).
    exists p. rewrite sorting.merge_sort_Permutation. split; [|done].
    apply list_elem_of_bind. exists li. split; [|done].
    rewrite decide_True by done. rewrite Hit. by apply list_elem_of_singleton.
Qed.

(** X14: what [GET /purchases] shows of a store, with no storage failure.
    A purchase is shown exactly when one of its lines names an item that
    is in the item table; its entries are those lines, each with the name
    and price the item has now and the quantity of the line.  So a
    purchase whose lines all name items that are not there is not shown,
    and once [DELETE /items/:id] has removed an item, the lines that name
    it are gone from every purchase shown. *)
Theorem X14_history_of_the_store (d : database) (i : Z) :
  let shown (t : tables) (k : Z) (x : Routes.sold) : Prop :=
    ∃ p li it,
      p ∈ purchases t ∧ p_id p = k ∧ li ∈ purchase_items t
      ∧ pi_purchase_id li = k ∧ items t !! pi_item_id li = Some it
      ∧ x = Routes.Sold (item_name it) (item_price it) (pi_quantity li) in
  (∃ out,
     Routes.get_purchases date_of None d = Routes.History out
     ∧ (∀ k, k ∈ Routes.g_id <$> out ↔ ∃ x, shown (live d) k x)
     ∧ (∀ g x, g ∈ out →
               x ∈ Routes.g_items g ↔ shown (live d) (Routes.g_id g) x))
  ∧ (∃ out,
       Routes.get_purchases date_of None (Routes.delete_items None i d).1
       = Routes.History out
       ∧ ∀ g x, g ∈ out →
                x ∈ Routes.g_items g
                ↔ ∃ p li it,
                    p ∈ purchases (live d) ∧ p_id p = Routes.g_id g
                    ∧ li ∈ purchase_items (live d)
                    ∧ pi_purchase_id li = Routes.g_id g
                    ∧ pi_item_id li ≠ i
                    ∧ items (live d) !! pi_item_id li = Some it
                    ∧ x = Routes.Sold (item_name it) (item_price it)
                                      (pi_quantity li)).
Proof.
  intros shown.
  assert (∀ t,
    ∃ out,
      Routes.on_history None (Routes.joined date_of t) = Routes.History out
      ∧ (∀ k, k ∈ Routes.g_id <$> out ↔ ∃ x, shown t k x)
      ∧ (∀ g x, g ∈ out →
                x ∈ Routes.g_items g ↔ shown t (Routes.g_id g) x)) as Hshown.
  { intros t. eexists. split; [done|].
    set (rows := Routes.joined date_of t).
    assert (∀ k x, (∃ r, r ∈ rows_of k rows ∧ x = sold_of r) ↔ shown t k x)
      as Hrows.
    { intros k x. unfold rows_of, shown. split.
      - intros (r & [<- Hr]%list_elem_of_filter & ->).
        apply joined_elem in Hr as (p & li & it & ? & ? & ? & ? & ->).
        by exists p, li, it.
      - intros (p & li & it & Hp & <- & Hli & Hid & Hit & ->).
        exists (Routes.HistoryRow (p_id p) (p_customer_name p)
                  (date_of (p_id p)) (item_name it) (item_price it)
                  (pi_quantity li)).
        split; [|done]. apply list_elem_of_filter.
        split; [done|]. apply joined_elem. by exists p, li, it. }
    split.
    - intros k. rewrite list_elem_of_fmap. split.
      + intros (g & -> & [k' Hg]%values_elem).
        destruct (group_of_Some k' g rows Hg) as (Hid & Hitems & r & Hr & _).
        rewrite Hid. exists (sold_of r). apply Hrows. exists r.
        split; [|done].
        destruct (rows_of k' rows) as [|r0 rest]; simpl in Hr; [discriminate|].
        injection Hr as ->. by left.
      + intros (x & (r & [Hk Hr]%list_elem_of_filter & _)%Hrows).
        destruct (proj2 (group_of_is_Some k rows)) as [g Hg].
        { apply list_elem_of_fmap. by exists r. }
        exists g. split; [by destruct (group_of_Some k g rows Hg)|].
        apply values_elem. by exists k.
    - intros g x [k Hg]%values_elem.
      destruct (group_of_Some k g rows Hg) as (Hid & Hitems & _).
      rewrite Hid, Hitems, list_elem_of_fmap, <- Hrows.
      split; intros (r & ? & ?); by exists r. }
  split; [apply Hshown|].
  destruct (Hshown (live (Routes.delete_items None i d).1))
    as (out & Hout & _ & Hitems).
  exists out. split; [exact Hout|].
  intros g x Hg. rewrite (Hitems g x Hg). unfold shown.
  assert (purchases (live (Routes.delete_items None i d).1)
          = purchases (live d)
          ∧ purchase_items (live (Routes.delete_items None i d).1)
            = purchase_items (live d)
          ∧ ∀ j it,
              items (live (Routes.delete_items None i d).1) !! j = Some it
              ↔ j ≠ i ∧ items (live d) !! j = Some it) as (-> & -> & Hlook).
  { unfold Routes.delete_items, Routes.delete_from_items.
    destruct (items (live d) !! i) eqn:Hi; simpl.
    - split_and!; try done. intros j it. rewrite lookup_delete.
      case_decide as Hij.
      + split; [done | intros [Hne _]; congruence].
      + split; [intros Hj; split; [congruence | done] | by intros [_ ?]].
    - split_and!; try done. intros j it.
      split; [intros Hj; split; [intros ->; congruence | done]
             | by intros [_ ?]]. }
  split.
  - intros (p & li & it & ? & ? & ? & ? & [? ?]%Hlook & ?).
    by exists p, li, it.
  - intros (p & li & it & ? & ? & ? & ? & ? & ? & ?).
    exists p, li, it. split_and!; try done. by apply Hlook.
Qed.
End Join.

Lemma X14_pen_deleted :
  ∃ out,
    Routes.get_purchases (λ _, "today") None
      (Routes.delete_items None 1
         (db (serve no_faults (post_purchases (order [line 1 3])) (shop 5)))).1
    = Routes.History out
    ∧ ∀ g x, g ∈ out → x ∈ Routes.g_items g →
             ∃ p li, Routes.g_id g = p_id p ∧ pi_item_id li ≠ 1.
Proof.
  destruct (X14_history_of_the_store (λ _, "today")
              (db (serve no_faults (post_purchases (order [line 1 3]))
                         (shop 5))) 1) as (_ & out & Hout & Hitems).
  exists out. split; [exact Hout|].
  intros g x Hg Hx. apply (Hitems g x Hg) in Hx
    as (p & li & it & _ & Hp & _ & _ & Hli & _).
  by exists p, li.
Defined.

(** *** A storage failure before the lines *)

(** X15: when the storage layer fails the insert of the purchase header
    (and neither [BEGIN] nor [ROLLBACK]), on an idle connection, the
    transaction is rolled back at once: the answer is the 500 of the error
    handler, no line statement and no [COMMIT] is issued, and the store is
    as it was before the request. *)
Theorem X15_header_failure (F : faults) (e : string) (body : value)
    (d : database) :
  validate_purchase body = Valid →
  idle d →
  F BEGIN_TRANSACTION = None →
  F ROLLBACK = None →
  F (INSERT_INTO_purchases (text_of (prop body "customer_name"))
                           (text_of (prop body "shipping_address")))
  = Some e →
  let st := serve F (post_purchases body) d in
  sent st = [server_error]
  ∧ db st = d
  ∧ queue st = []
  ∧ log st
    = [BEGIN_TRANSACTION;
       INSERT_INTO_purchases (text_of (prop body "customer_name"))
                             (text_of (prop body "shipping_address"));
       ROLLBACK].
Proof.
  intros Hvalid Hidle Hbegin Hrollback Hinsert st. subst st.
  assert (post_purchases body false
          = ((), false,
             [Run BEGIN_TRANSACTION no_callback;
              Run (INSERT_INTO_purchases (text_of (prop body "customer_name"))
                     (text_of (prop body "shipping_address")))
                  (purchase_inserted (prop body "items"))])) as Hh.
  { unfold post_purchases. by rewrite Hvalid. }
  unfold serve. rewrite Hh.
  change (runs _) with
    [(BEGIN_TRANSACTION, no_callback);
     (INSERT_INTO_purchases (text_of (prop body "customer_name"))
        (text_of (prop body "shipping_address")),
      purchase_inserted (prop body "items"))].
  change (sends _) with (@nil response).
  match goal with
  | |- context [turns ?n F _] =>
      replace n
        with (3 + (2 * length (elements (prop body "items")) + 1))%nat
        by (unfold work; simpl; lia)
  end.
  rewrite turns_add.
  assert (turns 3 F
            (State d false
               [(BEGIN_TRANSACTION, no_callback);
                (INSERT_INTO_purchases (text_of (prop body "customer_name"))
                   (text_of (prop body "shipping_address")),
                 purchase_inserted (prop body "items"))] [] [])
          = State d false [] [server_error]
              [BEGIN_TRANSACTION;
               INSERT_INTO_purchases (text_of (prop body "customer_name"))
                 (text_of (prop body "shipping_address"));
               ROLLBACK]) as ->.
  { rewrite !turns_S. simpl turns.
    unfold step at 3. simpl. unfold exec_with at 1. rewrite Hbegin.
    simpl. rewrite Hidle. simpl.
    unfold step at 2. simpl. unfold exec_with at 1. rewrite Hinsert.
    simpl.
    unfold step. simpl. unfold exec_with. rewrite Hrollback. simpl.
    by rewrite idle_eq. }
  by rewrite turns_idle.
Qed.

Lemma X15_header_rejected_by_the_store :
  validate_purchase (order [line 1 3]) = Valid
  ∧ idle (shop 10)
  ∧ sent (serve (λ s, match s with
                      | INSERT_INTO_purchases _ _ => Some "disk I/O error"
                      | _ => None
                      end)
                (post_purchases (order [line 1 3])) (shop 10))
    = [server_error]
  ∧ db (serve (λ s, match s with
                    | INSERT_INTO_purchases _ _ => Some "disk I/O error"
                    | _ => None
                    end)
              (post_purchases (order [line 1 3])) (shop 10))
    = shop 10.
Proof.
  pose proof (X15_header_failure
                (λ s, match s with
                      | INSERT_INTO_purchases _ _ => Some "disk I/O error"
                      | _ => None
                      end)
                "disk I/O error" (order [line 1 3]) (shop 10)
                eq_refl eq_refl eq_refl eq_refl eq_refl) as H.
  cbv zeta in H. destruct H as (Hsent & Hdb & _).
  split; [reflexivity|]. split; [reflexivity|].
  split; [exact Hsent | exact Hdb].
Defined.

(** *** A purchase on a connection with an open transaction *)

Lemma exec_begin_open F d t :
  saved d = Some t →
  ∃ e, exec_with F BEGIN_TRANSACTION d = (d, failed e).
Proof.
  intros Hsaved. unfold exec_with. destruct (F _); [eauto|].
  simpl. rewrite Hsaved. eauto.
Qed.

Lemma run_after_the_end F picks d e snt lg :
  run F picks (Pool d e [] snt lg) = Pool d e [] snt lg.
Proof. induction picks as [|k picks IH]; [done|]. simpl. by destruct k. Qed.

(** X16: a purchase request that passed the checks and finds a transaction
    open on the connection (that of another request, say) is never
    answered.  [BEGIN TRANSACTION] (l.128), run without a callback, fails,
    and that ends the process, before the header insert or anything else
    is executed; the database file is left with the open transaction
    undone.  In whatever order and however long the driver runs, no
    response is sent. *)
Theorem X16_open_transaction_ends_the_process (F : faults) (body : value)
    (d : database) (t : tables) (picks : list nat) :
  validate_purchase body = Valid →
  saved d = Some t →
  serve F (post_purchases body) d
  = State (Database t None) false [] [] [BEGIN_TRANSACTION]
  ∧ pool_sent (Parallel.run F picks (Parallel.start (post_purchases body) d))
    = []
  ∧ (Parallel.run F picks (Parallel.start (post_purchases body) d)
     = Parallel.start (post_purchases body) d
     ∨ Parallel.run F picks (Parallel.start (post_purchases body) d)
       = Pool (Database t None) false [] [] [BEGIN_TRANSACTION]).
Proof.
  intros Hvalid Hsaved.
  destruct (exec_begin_open F d t Hsaved) as [e Hex].
  set (hdr := INSERT_INTO_purchases (text_of (prop body "customer_name"))
                (text_of (prop body "shipping_address"))).
  assert (post_purchases body false
          = ((), false,
             [Run BEGIN_TRANSACTION no_callback;
              Run hdr (purchase_inserted (prop body "items"))])) as Hh.
  { unfold post_purchases. by rewrite Hvalid. }
  assert (recover d = Database t None) as Hrec.
  { unfold recover. by rewrite Hsaved. }
  split.
  { unfold serve. rewrite Hh.
    change (runs _) with
      [(BEGIN_TRANSACTION, no_callback);
       (hdr, purchase_inserted (prop body "items"))].
    change (sends _) with (@nil response).
    match goal with
    | |- context [turns ?n F _] =>
        replace n
          with (S (S (2 * length (elements (prop body "items")) + 2)))
          by (unfold work; simpl; lia)
    end.
    rewrite turns_S. unfold step. cbn [queue db stockError].
    rewrite Hex. simpl. rewrite Hrec. by rewrite turns_idle. }
  assert (Parallel.run F picks (Parallel.start (post_purchases body) d)
          = Parallel.start (post_purchases body) d
          ∨ Parallel.run F picks (Parallel.start (post_purchases body) d)
            = Pool (Database t None) false [] [] [BEGIN_TRANSACTION]) as Hrun.
  { unfold start. rewrite Hh.
    change (runs _) with
      [(BEGIN_TRANSACTION, no_callback);
       (hdr, purchase_inserted (prop body "items"))].
    change (sends _) with (@nil response).
    induction picks as [|k picks IH]; [by left|].
    destruct k as [|k].
    - right. simpl. unfold run_next at 1. cbn [waiting pool_db lookup].
      simpl. rewrite Hex. simpl. rewrite Hrec. apply run_after_the_end.
    - destruct IH as [IH|IH]; [left | right];
        (rewrite <- IH at 2 || rewrite <- IH); by destruct k. }
  split; [|exact Hrun].
  destruct Hrun as [-> | ->]; [|done].
  unfold start. by rewrite Hh.
Qed.

(** The connection of [shop 10] with a transaction open. *)
Lemma X16_a_second_purchase_meanwhile :
  validate_purchase (order [line 1 3]) = Valid
  ∧ saved (Database (live (shop 10)) (Some (live (shop 10))))
    = Some (live (shop 10))
  ∧ sent (serve no_faults (post_purchases (order [line 1 3]))
                (Database (live (shop 10)) (Some (live (shop 10)))))
    = [].
Proof.
  pose proof (X16_open_transaction_ends_the_process no_faults
                (order [line 1 3])
                (Database (live (shop 10)) (Some (live (shop 10))))
                (live (shop 10)) [] eq_refl eq_refl) as [H _].
  split; [reflexivity|]. split; [reflexivity|]. by rewrite H.
Defined.
